(** * PanInsight: the image viewer and the upload form

    A shallow embedding of [ImageViewer.tsx] (zoom, rotation, pan gestures,
    render transform, export) and of the upload component (file validation,
    sample report), followed by the properties proved about them.

    JavaScript numbers are IEEE 754 binary64 values; they are modelled by
    Rocq's primitive floats, whose operations are the same binary64
    operations with round-to-nearest-even. *)

From Stdlib Require Import ZArith Lia Bool List String Ascii Floats.
Import ListNotations.
Set Warnings "-inexact-float".

(** ** JavaScript values *)

Module JS.

Definition number := float.

(** [Math.min(a, b)]: NaN if either argument is NaN, and -0 is below +0. *)
Definition Math_min (a b : number) : number :=
  if is_nan a || is_nan b then nan
  else if (a <? b)%float then a
  else if (b <? a)%float then b
  else if get_sign a then a else b.

(** [Math.max(a, b)]: NaN if either argument is NaN, and +0 is above -0. *)
Definition Math_max (a b : number) : number :=
  if is_nan a || is_nan b then nan
  else if (a <? b)%float then b
  else if (b <? a)%float then a
  else if get_sign a then b else a.

(** The number that holds the integer [n] (exactly, when |n| <= 2^53). *)
Definition Z2number (n : Z) : number :=
  SF2Prim (binary_normalize prec emax n 0%Z false).

(** [Math.floor(x)]: the largest integer not above [x]; infinities, NaN,
    zeros and numbers without fractional bits are returned as they are. *)
Definition Math_floor (x : number) : number :=
  match Prim2SF x with
  | S754_finite s m e =>
      if (0 <=? e)%Z then x
      else SF2Prim (binary_normalize prec emax
                      (Z.shiftr (cond_Zopp s (Zpos m)) (- e)%Z) 0%Z s)
  | _ => x
  end.

(** The conversion of a number to a Web IDL [unsigned long], applied when a
    number is assigned to such an attribute of a DOM element: NaN and the
    infinities give 0; any other number is truncated toward zero and reduced
    modulo 2^32. *)
Definition ToUint32 (x : number) : Z :=
  match Prim2SF x with
  | S754_finite s m e =>
      (cond_Zopp s (Z.shiftr (Zpos m) (- e)) mod 2 ^ 32)%Z
  | _ => 0%Z
  end.

(** [Math.PI] *)
Definition Math_PI : number := 0x1.921fb54442d18p+1%float.

(** Strings. Only the ASCII letters are case-mapped: every suffix the
    program looks for is ASCII, and no other character lower-cases into
    an ASCII letter of those suffixes. *)
Definition toLowerCase_char (c : ascii) : ascii :=
  let n := nat_of_ascii c in
  if (65 <=? n)%nat && (n <=? 90)%nat then ascii_of_nat (n + 32) else c.

Fixpoint toLowerCase (s : string) : string :=
  match s with
  | EmptyString => EmptyString
  | String c s' => String (toLowerCase_char c) (toLowerCase s')
  end.

(** [s.endsWith(suffix)]: some tail of [s] is [suffix]. *)
Fixpoint endsWith (s suffix : string) : bool :=
  (s =? suffix)%string ||
  match s with
  | EmptyString => false
  | String _ s' => endsWith s' suffix
  end.

(** [s.startsWith(p)] *)
Definition startsWith (s p : string) : bool := String.prefix p s.

(** [array.includes(v)] on an array of strings *)
Definition includes (array : list string) (v : string) : bool :=
  existsb (fun a => (a =? v)%string) array.

End JS.

(** ** ImageViewer.tsx *)

Module ImageViewer.
Import JS.
Local Open Scope float_scope.

(** [interface ViewerState]. [rotation] only ever holds 0 (initially and on
    reset) or the result of [handleRotate], small integers on which binary64
    arithmetic is exact; it is kept as an integer, with JavaScript's
    truncating [%] ([Z.rem]). *)
Record ViewerState := mkViewerState
  { zoom : number;
    rotation : Z;
    contrast : number;
    brightness : number }.

Record Point := mkPoint { x : number; y : number }.

(** The [useState] cells of the component. *)
Record Component := mkComponent
  { viewerState : ViewerState;
    isDragging : bool;
    dragStart : Point;
    panOffset : Point;
    isImageLoaded : bool;
    isImageError : bool }.

Definition initial : Component :=
  {| viewerState := {| zoom := 1; rotation := 0; contrast := 100; brightness := 100 |};
     isDragging := false;
     dragStart := {| x := 0; y := 0 |};
     panOffset := {| x := 0; y := 0 |};
     isImageLoaded := false;
     isImageError := false |}.

(** The state setters returned by [useState]. *)
Definition setViewerState (f : ViewerState -> ViewerState) (c : Component) : Component :=
  {| viewerState := f (viewerState c); isDragging := isDragging c;
     dragStart := dragStart c; panOffset := panOffset c;
     isImageLoaded := isImageLoaded c; isImageError := isImageError c |}.

Definition setIsDragging (b : bool) (c : Component) : Component :=
  {| viewerState := viewerState c; isDragging := b;
     dragStart := dragStart c; panOffset := panOffset c;
     isImageLoaded := isImageLoaded c; isImageError := isImageError c |}.

Definition setDragStart (p : Point) (c : Component) : Component :=
  {| viewerState := viewerState c; isDragging := isDragging c;
     dragStart := p; panOffset := panOffset c;
     isImageLoaded := isImageLoaded c; isImageError := isImageError c |}.

Definition setPanOffset (p : Point) (c : Component) : Component :=
  {| viewerState := viewerState c; isDragging := isDragging c;
     dragStart := dragStart c; panOffset := p;
     isImageLoaded := isImageLoaded c; isImageError := isImageError c |}.

Definition setIsImageLoaded (b : bool) (c : Component) : Component :=
  {| viewerState := viewerState c; isDragging := isDragging c;
     dragStart := dragStart c; panOffset := panOffset c;
     isImageLoaded := b; isImageError := isImageError c |}.

Definition setIsImageError (b : bool) (c : Component) : Component :=
  {| viewerState := viewerState c; isDragging := isDragging c;
     dragStart := dragStart c; panOffset := panOffset c;
     isImageLoaded := isImageLoaded c; isImageError := b |}.

(** *** Transform commands *)

Inductive Direction := zoom_in | zoom_out.

(** The literals [1.2] and [0.1] denote, as in JavaScript, the nearest
    doubles, 0x1.3333333333333p+0 and 0x1.999999999999ap-4. *)

Definition handleZoom (direction : Direction) : Component -> Component :=
  setViewerState (fun prev =>
    {| zoom := match direction with
               | zoom_in => Math_min (zoom prev * 1.2) 5
               | zoom_out => Math_max (zoom prev / 1.2) 0.1
               end;
       rotation := rotation prev;
       contrast := contrast prev;
       brightness := brightness prev |}).

Definition handleRotate : Component -> Component :=
  setViewerState (fun prev =>
    {| zoom := zoom prev;
       rotation := Z.rem (rotation prev + 90) 360;
       contrast := contrast prev;
       brightness := brightness prev |}).

Definition handleContrastChange (value : number) : Component -> Component :=
  setViewerState (fun prev =>
    {| zoom := zoom prev; rotation := rotation prev;
       contrast := value; brightness := brightness prev |}).

Definition handleBrightnessChange (value : number) : Component -> Component :=
  setViewerState (fun prev =>
    {| zoom := zoom prev; rotation := rotation prev;
       contrast := contrast prev; brightness := value |}).

Definition handleReset (c : Component) : Component :=
  setPanOffset {| x := 0; y := 0 |}
    (setViewerState (fun _ =>
       {| zoom := 1; rotation := 0; contrast := 100; brightness := 100 |}) c).

(** *** Pointer and touch tracking *)

Record Pointer := mkPointer { clientX : number; clientY : number }.
Definition MouseEvent := Pointer.
Record TouchEvent := mkTouchEvent { touches : list Pointer }.

Definition handleMouseDown (e : MouseEvent) (c : Component) : Component :=
  if 1 <? zoom (viewerState c) then
    setDragStart {| x := clientX e - x (panOffset c);
                    y := clientY e - y (panOffset c) |}
      (setIsDragging true c)
  else c.

Definition handleMouseMove (e : MouseEvent) (c : Component) : Component :=
  if isDragging c && (1 <? zoom (viewerState c)) then
    setPanOffset {| x := clientX e - x (dragStart c);
                    y := clientY e - y (dragStart c) |} c
  else c.

Definition handleMouseUp : Component -> Component := setIsDragging false.

Definition handleTouchStart (e : TouchEvent) (c : Component) : Component :=
  if (1 <? zoom (viewerState c)) && (List.length (touches e) =? 1)%nat then
    match touches e with
    | t0 :: _ =>
        setDragStart {| x := clientX t0 - x (panOffset c);
                        y := clientY t0 - y (panOffset c) |}
          (setIsDragging true c)
    | [] => c
    end
  else c.

(** The boolean tells whether [e.preventDefault()] was called. *)
Definition handleTouchMove (e : TouchEvent) (c : Component) : Component * bool :=
  if isDragging c && (1 <? zoom (viewerState c)) && (List.length (touches e) =? 1)%nat then
    match touches e with
    | t0 :: _ =>
        (setPanOffset {| x := clientX t0 - x (dragStart c);
                         y := clientY t0 - y (dragStart c) |} c, true)
    | [] => (c, false)
    end
  else (c, false).

Definition handleTouchEnd : Component -> Component := setIsDragging false.

(** *** Render: the style of the [<img>] element *)

Inductive TransformFunction :=
| scale (s : number)
| rotate_deg (degrees : Z)
| translate_px (tx ty : number).

Record Filter := mkFilter { contrast_pct : number; brightness_pct : number }.

Definition panTranslation (c : Component) : Point :=
  {| x := x (panOffset c) / zoom (viewerState c);
     y := y (panOffset c) / zoom (viewerState c) |}.

Definition imgTransform (c : Component) : list TransformFunction :=
  [ scale (zoom (viewerState c));
    rotate_deg (rotation (viewerState c));
    translate_px (x (panTranslation c)) (y (panTranslation c)) ].

Definition imgFilter (c : Component) : Filter :=
  {| contrast_pct := contrast (viewerState c);
     brightness_pct := brightness (viewerState c) |}.

(** *** Export: [handleSave] *)

(** The [<img>] element behind [imageRef], read-only here. *)
Record Image := mkImage { naturalWidth : number; naturalHeight : number }.

Inductive ContextCall :=
| ctx_save
| ctx_translate (tx ty : number)
| ctx_rotate (angle : number)
| ctx_drawImage (img : Image) (dx dy dw dh : number)
| ctx_restore.

(** The canvas built by [handleSave]: the values assigned to [width] and
    [height], the filter set on its 2D context, and the context calls in
    order. *)
Record Canvas := mkCanvas
  { width : number;
    height : number;
    filter : option Filter;
    calls : list ContextCall }.

(** What the element holds after a number is assigned to [canvas.width] or
    [canvas.height]. Both are [unsigned long] attributes reflecting a content
    attribute with a default (300 for the width, 150 for the height): the
    number is converted by [ToUint32], and a result above 2^31 - 1 is
    replaced by the default. This whole number is what [canvas.width] reads
    back, and the size of the surface in pixels. *)
Definition reflected_dimension (default : Z) (assigned : number) : Z :=
  let n := ToUint32 assigned in
  if (n <=? 2147483647)%Z then n else default.

Definition surface_width (canvas : Canvas) : Z :=
  reflected_dimension 300 (width canvas).

Definition surface_height (canvas : Canvas) : Z :=
  reflected_dimension 150 (height canvas).

(** [canvas.toDataURL('image/png')]: the encoding of what was drawn. *)
Inductive DataURL := image_png (c : Canvas).

Record Props := mkProps
  { imageSrc : string;
    fileName : string;
    onClose : bool;   (* is the optional callback supplied? *)
    onSave : bool }.

Inductive Effect :=
| PreventDefault
| CallOnClose
| CallOnSave (editedImageData : DataURL).

(** [imageRef] is [None] while no [<img>] is mounted; [context2d] tells
    whether [canvas.getContext('2d')] returned a context. [scaledWidth] and
    [scaledHeight] are assigned to the canvas; [canvas_width] and
    [canvas_height] are [canvas.width] and [canvas.height] as the code reads
    them back for the translation. *)
Definition handleSave (props : Props) (imageRef : option Image) (context2d : bool)
    (c : Component) : Component * list Effect :=
  match imageRef with
  | None => (c, [])
  | Some img =>
      if negb context2d then (c, [])
      else
        let vs := viewerState c in
        let scaledWidth := naturalWidth img * zoom vs in
        let scaledHeight := naturalHeight img * zoom vs in
        let canvas_width := Z2number (reflected_dimension 300 scaledWidth) in
        let canvas_height := Z2number (reflected_dimension 150 scaledHeight) in
        let ctx_filter := {| contrast_pct := contrast vs; brightness_pct := brightness vs |} in
        let drawn :=
          if negb (rotation vs =? 0)%Z then
            [ ctx_save;
              ctx_translate (canvas_width / 2) (canvas_height / 2);
              ctx_rotate ((Z2number (rotation vs) * Math_PI) / 180);
              ctx_drawImage img (- scaledWidth / 2) (- scaledHeight / 2)
                            scaledWidth scaledHeight;
              ctx_restore ]
          else
            [ ctx_drawImage img 0 0 scaledWidth scaledHeight ] in
        let canvas := {| width := scaledWidth; height := scaledHeight;
                         filter := Some ctx_filter; calls := drawn |} in
        let editedImageData := image_png canvas in
        (c, if onSave props then [CallOnSave editedImageData] else [])
  end.

(** *** Keyboard shortcuts *)

Record KeyboardEvent := mkKeyboardEvent { targetIsBody : bool; key : string }.

Definition handleKeyDown (props : Props) (e : KeyboardEvent) (c : Component)
    : Component * list Effect :=
  if negb (targetIsBody e) then (c, [])
  else if ((key e =? "+") || (key e =? "="))%string then
    (handleZoom zoom_in c, [PreventDefault])
  else if (key e =? "-")%string then
    (handleZoom zoom_out c, [PreventDefault])
  else if ((key e =? "r") || (key e =? "R"))%string then
    (handleRotate c, [PreventDefault])
  else if (key e =? "0")%string then
    (handleReset c, [PreventDefault])
  else if (key e =? "Escape")%string then
    (c, PreventDefault :: (if onClose props then [CallOnClose] else []))
  else (c, []).

(** *** The component as a transition system *)

Inductive Event :=
| ClickZoom (direction : Direction)
| ClickRotate
| ChangeContrast (value : number)
| ChangeBrightness (value : number)
| ClickReset
| ClickSave (imageRef : option Image) (context2d : bool)
| ClickClose
| MouseDown (e : MouseEvent)
| MouseMove (e : MouseEvent)
| MouseUp
| MouseLeave
| TouchStart (e : TouchEvent)
| TouchMove (e : TouchEvent)
| TouchEnd
| ContextMenu
| KeyDown (e : KeyboardEvent)
| ImgLoad
| ImgError.

Definition step (props : Props) (ev : Event) (c : Component) : Component * list Effect :=
  match ev with
  | ClickZoom d => (handleZoom d c, [])
  | ClickRotate => (handleRotate c, [])
  | ChangeContrast v => (handleContrastChange v c, [])
  | ChangeBrightness v => (handleBrightnessChange v c, [])
  | ClickReset => (handleReset c, [])
  | ClickSave imageRef context2d => handleSave props imageRef context2d c
  | ClickClose => (c, if onClose props then [CallOnClose] else [])
  | MouseDown e => (handleMouseDown e c, [])
  | MouseMove e => (handleMouseMove e c, [])
  | MouseUp | MouseLeave => (handleMouseUp c, [])
  | TouchStart e => (handleTouchStart e c, [])
  | TouchMove e =>
      let '(c', prevented) := handleTouchMove e c in
      (c', if prevented then [PreventDefault] else [])
  | TouchEnd => (handleTouchEnd c, [])
  | ContextMenu => (c, [PreventDefault])
  | KeyDown e => handleKeyDown props e c
  | ImgLoad => (setIsImageLoaded true c, [])
  | ImgError => (setIsImageError true c, [])
  end.

Definition next (props : Props) (ev : Event) (c : Component) : Component :=
  fst (step props ev c).

(** The state after a sequence of events, oldest first. *)
Definition run (props : Props) (evs : list Event) (c : Component) : Component :=
  fold_left (fun c ev => next props ev c) evs c.

Inductive reachable (props : Props) : Component -> Prop :=
| reachable_initial : reachable props initial
| reachable_step ev c : reachable props c -> reachable props (next props ev c).

(** The spec's TransformState: the viewer state together with the pan. *)
Record TransformState := mkTransformState
  { ts_zoom : number;
    ts_rotation : Z;
    ts_contrast : number;
    ts_brightness : number;
    ts_panOffset : Point }.

Definition transformState (c : Component) : TransformState :=
  {| ts_zoom := zoom (viewerState c);
     ts_rotation := rotation (viewerState c);
     ts_contrast := contrast (viewerState c);
     ts_brightness := brightness (viewerState c);
     ts_panOffset := panOffset c |}.

(** [0.1 <= zoom <= 5] *)
Definition zoom_in_range (c : Component) : Prop :=
  (0.1 <=? zoom (viewerState c)) = true /\ (zoom (viewerState c) <=? 5) = true.

(** The events that start a gesture, and those that continue it. *)
Definition is_press (ev : Event) : bool :=
  match ev with MouseDown _ | TouchStart _ => true | _ => false end.

Definition is_move (ev : Event) : bool :=
  match ev with MouseMove _ | TouchMove _ => true | _ => false end.

Definition is_reset (ev : Event) : bool :=
  match ev with
  | ClickReset => true
  | KeyDown e => targetIsBody e && (key e =? "0")%string
  | _ => false
  end.

Definition origin : Point := {| x := 0; y := 0 |}.

(** The zoom is at most 1 in every state the events are handled in. *)
Fixpoint stays_unzoomed (props : Props) (evs : list Event) (c : Component) : Prop :=
  match evs with
  | [] => True
  | ev :: rest =>
      (zoom (viewerState c) <=? 1) = true /\ stays_unzoomed props rest (next props ev c)
  end.

(** [n] presses of the rotate button. *)
Definition rotations (n : nat) (c : Component) : Component :=
  Nat.iter n handleRotate c.

Definition quarter_turns : list Z := [0; 90; 180; 270]%Z.

(** The canvas handed to [onSave], if any. *)
Definition savedCanvas (effects : list Effect) : option Canvas :=
  match effects with
  | [CallOnSave (image_png canvas)] => Some canvas
  | _ => None
  end.

(** The images a canvas was drawn from. *)
Definition drawnImages (canvas : Canvas) : list Image :=
  flat_map (fun call => match call with
                        | ctx_drawImage img _ _ _ _ => [img]
                        | _ => []
                        end) (calls canvas).

End ImageViewer.


(** ** The upload component *)

Module UploadScan.
Import JS.
Local Open Scope string_scope.

(** A browser [File]: its name, MIME type and size in bytes. *)
Record File := mkFile { name : string; type : string; size : Z }.

Record FileInfo := mkFileInfo
  { file : File;
    preview : option string;
    size_text : string }.

Definition acceptedTypes : list string := [".dcm"; ".jpg"; ".jpeg"; ".png"].

Definition acceptedMimeTypes : list string :=
  [ "image/jpeg";
    "image/jpg";
    "image/png";
    "application/dicom";
    "application/octet-stream" ].

Definition validateFile (file : File) : bool :=
  let isValidType :=
    existsb (fun type => endsWith (toLowerCase (name file)) type) acceptedTypes
    || includes acceptedMimeTypes (type file) in
  let isValidSize := (size file <=? 50 * 1024 * 1024)%Z in
  isValidType && isValidSize.

(** The validation as the specification words it. *)
Definition spec_accepts (f : File) : Prop :=
  let lowered := toLowerCase (name f) in
  ((endsWith lowered ".dcm" = true \/ endsWith lowered ".jpg" = true \/
    endsWith lowered ".jpeg" = true \/ endsWith lowered ".png" = true)
   \/
   (type f = "image/jpeg" \/ type f = "image/jpg" \/ type f = "image/png" \/
    type f = "application/dicom" \/ type f = "application/octet-stream"))
  /\ (size f <= 52428800)%Z.

Inductive RiskLevel := Low | Medium | High.

Record ReportData := mkReportData
  { scanType : string;
    analysisDate : string;
    confidence : number;
    findings : list string;
    recommendations : list string;
    riskLevel : RiskLevel;
    nextSteps : list string;
    followUpTimeline : string }.

(** The [useState] cells of the component. *)
Record Component := mkComponent
  { fileInfo : option FileInfo;
    isDragOver : bool;
    hasConsent : bool;
    isAnalyzing : bool;
    dragCounter : Z;
    isPulsing : bool;
    showViewer : bool }.

Inductive Effect :=
| Alert (message : string)
| SetTimeout_clearPulsing (ms : Z)
| Delay (ms : Z)
| LocalStorage_setItem (k : string) (json_of : ReportData)
| Navigate (path : string) (reportData : ReportData)
| CallOnAnalyze (f : File).

Definition setFileInfo (v : option FileInfo) (c : Component) : Component :=
  {| fileInfo := v; isDragOver := isDragOver c; hasConsent := hasConsent c;
     isAnalyzing := isAnalyzing c; dragCounter := dragCounter c;
     isPulsing := isPulsing c; showViewer := showViewer c |}.

Definition setIsPulsing (b : bool) (c : Component) : Component :=
  {| fileInfo := fileInfo c; isDragOver := isDragOver c; hasConsent := hasConsent c;
     isAnalyzing := isAnalyzing c; dragCounter := dragCounter c;
     isPulsing := b; showViewer := showViewer c |}.

Definition setIsAnalyzing (b : bool) (c : Component) : Component :=
  {| fileInfo := fileInfo c; isDragOver := isDragOver c; hasConsent := hasConsent c;
     isAnalyzing := b; dragCounter := dragCounter c;
     isPulsing := isPulsing c; showViewer := showViewer c |}.

Section Browser.

(** What the browser supplies: the size label ([formatFileSize] goes through
    [Math.log] and [toFixed], outside binary64 arithmetic) and the data URL a
    [FileReader] produces. No property below depends on their values. *)
Variable formatFileSize : Z -> string.
Variable readAsDataURL : File -> string.

Definition createFilePreview (file : File) : option string :=
  if endsWith (toLowerCase (name file)) ".dcm" then None
  else if startsWith (type file) "image/" then Some (readAsDataURL file)
  else None.

Definition handleFileSelect (file : File) (c : Component) : Component * list Effect :=
  if negb (validateFile file) then
    (c, [Alert "Please select a valid medical image file (.dcm, .jpg, .jpeg, .png) under 50MB."])
  else
    let preview := createFilePreview file in
    (setFileInfo (Some {| file := file; preview := preview;
                          size_text := formatFileSize (size file) |})
       (setIsPulsing true c),
     [SetTimeout_clearPulsing 1000]).

(** [sampleReportData], given the value of [Math.random()] and the
    formatted current date. *)
Definition sampleReportData (fileInfo : FileInfo) (random : number) (now : string)
    : ReportData :=
  {| scanType := if endsWith (toLowerCase (name (file fileInfo))) ".dcm"
                 then "DICOM CT Scan" else "Medical Image";
     analysisDate := now;
     confidence := (Math_floor (random * 30) + 70)%float;
     findings :=
       [ "No significant abnormalities detected in the pancreatic region";
         "Normal pancreatic tissue density and structure observed";
         "Vascular structures appear within normal limits";
         "No evidence of mass lesions or calcifications";
         "Pancreatic duct appears normal in caliber" ];
     recommendations :=
       [ "Continue routine monitoring as recommended by your healthcare provider";
         "Maintain healthy lifestyle habits including balanced diet and regular exercise";
         "Schedule follow-up imaging in 6-12 months as per standard protocols";
         "Consider annual screening if you have family history of pancreatic conditions";
         "Report any new symptoms to your healthcare provider promptly" ];
     riskLevel := Low;
     nextSteps :=
       [ "Share this report with your primary care physician";
         "Schedule follow-up appointment within 3-6 months";
         "Maintain regular health check-ups";
         "Monitor for any new symptoms or changes";
         "Consider genetic counseling if family history is present" ];
     followUpTimeline :=
       "Recommended follow-up in 6-12 months with repeat imaging and consultation with your healthcare provider." |}.

(** The call inside the [try] block of [handleAnalyze] that raises an
    exception, when one does. *)
Inductive ThrowSite :=
| at_setItem      (* localStorage.setItem('paninsight-report', ...) *)
| at_navigate     (* navigate('/report', ...) *)
| at_onAnalyze.   (* onAnalyze(fileInfo.file), when supplied *)

(** [handleAnalyze]. [onAnalyze] tells whether the optional callback is
    supplied; [throws] which call of the [try] block raises, if any. What
    ran before that call stays done; the [catch] block then alerts, and the
    [finally] block clears [isAnalyzing] on every path. *)
Definition handleAnalyze (onAnalyze : bool) (throws : option ThrowSite)
    (random : number) (now : string) (c : Component) : Component * list Effect :=
  match fileInfo c with
  | None => (c, [])
  | Some info =>
      if negb (hasConsent c) then (c, [])
      else
        let report := sampleReportData info random now in
        let caught := [Alert "Analysis failed. Please try again."] in
        (setIsAnalyzing false (setIsAnalyzing true c),
         Delay 3000 ::
         match throws with
         | Some at_setItem => caught
         | Some at_navigate =>
             LocalStorage_setItem "paninsight-report" report :: caught
         | Some at_onAnalyze =>
             LocalStorage_setItem "paninsight-report" report ::
             Navigate "/report" report ::
             (if onAnalyze then CallOnAnalyze (file info) :: caught else [])
         | None =>
             LocalStorage_setItem "paninsight-report" report ::
             Navigate "/report" report ::
             (if onAnalyze then [CallOnAnalyze (file info)] else [])
         end)
  end.

(** The report [handleAnalyze] builds, when it builds one. *)
Definition generatedReport (random : number) (now : string) (c : Component)
    : option ReportData :=
  match fileInfo c with
  | None => None
  | Some info =>
      if negb (hasConsent c) then None
      else Some (sampleReportData info random now)
  end.

End Browser.

End UploadScan.

(** ** Concrete states and events used in the examples *)

Module Scenario.
Import JS ImageViewer.
Local Open Scope float_scope.

Definition no_callbacks : Props :=
  {| imageSrc := ""; fileName := "scan.png"; onClose := false; onSave := false |}.

Definition with_callbacks : Props :=
  {| imageSrc := "data:image/png;base64,"; fileName := "scan.png";
     onClose := true; onSave := true |}.

Definition at_10_10 : Pointer := {| clientX := 10; clientY := 10 |}.
Definition at_50_50 : Pointer := {| clientX := 50; clientY := 50 |}.
Definition at_100_100 : Pointer := {| clientX := 100; clientY := 100 |}.
Definition at_130_100 : Pointer := {| clientX := 130; clientY := 100 |}.

(** The initial state with the zoom set to 2. *)
Definition zoomed_2 : Component :=
  setViewerState (fun prev =>
    {| zoom := 2; rotation := rotation prev;
       contrast := contrast prev; brightness := brightness prev |}) initial.

(** Zoom in once, drag by (30, 0), release, zoom out once. *)
Definition pan_then_zoom_out : list Event :=
  [ ClickZoom zoom_in; MouseDown at_100_100; MouseMove at_130_100; MouseUp;
    ClickZoom zoom_out ].

(** A press and a move at zoom 1, then a rotation. *)
Definition press_move_rotate : list Event :=
  [ MouseDown at_10_10; MouseMove at_50_50; ClickRotate ].

(** zoom = 2 and rotation = 90, panned by (30, 0). *)
Definition zoomed_2_rotated_90 : Component :=
  setPanOffset {| x := 30; y := 0 |}
    (setViewerState (fun prev =>
       {| zoom := 2; rotation := 90;
          contrast := contrast prev; brightness := brightness prev |}) initial).

Definition image_100x50 : Image := {| naturalWidth := 100; naturalHeight := 50 |}.

(** An image whose size scaled by 1.2 is not a whole number of pixels, and
    the viewer after one zoom-in (zoom = 1.2). *)
Definition image_101x51 : Image := {| naturalWidth := 101; naturalHeight := 51 |}.

Definition zoomed_in_once : Component :=
  next no_callbacks (ClickZoom zoom_in) initial.

(** Files of the specification's validation examples. *)
Definition scan_DCM : UploadScan.File :=
  {| UploadScan.name := "scan.DCM"; UploadScan.type := ""; UploadScan.size := 1048576 |}.

Definition scan_txt : UploadScan.File :=
  {| UploadScan.name := "scan.txt"; UploadScan.type := "text/plain";
     UploadScan.size := 1024 |}.

Definition scan_png_60MiB : UploadScan.File :=
  {| UploadScan.name := "scan.png"; UploadScan.type := "image/png";
     UploadScan.size := 62914560 |}.

Definition scan_png_50MiB : UploadScan.File :=
  {| UploadScan.name := "scan.png"; UploadScan.type := "image/png";
     UploadScan.size := 52428800 |}.

(** A text file that the browser reports as a byte stream. *)
Definition notes_txt_octet_stream : UploadScan.File :=
  {| UploadScan.name := "notes.txt"; UploadScan.type := "application/octet-stream";
     UploadScan.size := 1024 |}.

(** The upload form with [scan_png_50MiB] selected and consent given. *)
Definition ready_to_analyze : UploadScan.Component :=
  {| UploadScan.fileInfo :=
       Some {| UploadScan.file := scan_png_50MiB;
               UploadScan.preview := None;
               UploadScan.size_text := "50 MB" |};
     UploadScan.isDragOver := false;
     UploadScan.hasConsent := true;
     UploadScan.isAnalyzing := false;
     UploadScan.dragCounter := 0;
     UploadScan.isPulsing := false;
     UploadScan.showViewer := false |}.

End Scenario.

(** ** The upload page: drag and drop, selection, reset, viewer callbacks *)

Module UploadPage.
Import JS UploadScan.
Local Open Scope string_scope.

(** The page when it opens. *)
Definition initial : Component :=
  {| fileInfo := None; isDragOver := false; hasConsent := false;
     isAnalyzing := false; dragCounter := 0; isPulsing := false;
     showViewer := false |}.

Inductive PageEffect :=
| PreventDefault
| StopPropagation
| ClearFileInput                     (* fileInputRef.current.value = '' *)
| Raised (e : UploadScan.Effect).    (* an effect of the handlers above *)

Definition setIsDragOver (b : bool) (c : Component) : Component :=
  {| fileInfo := fileInfo c; isDragOver := b; hasConsent := hasConsent c;
     isAnalyzing := isAnalyzing c; dragCounter := dragCounter c;
     isPulsing := isPulsing c; showViewer := showViewer c |}.

Definition setDragCounter (f : Z -> Z) (c : Component) : Component :=
  {| fileInfo := fileInfo c; isDragOver := isDragOver c; hasConsent := hasConsent c;
     isAnalyzing := isAnalyzing c; dragCounter := f (dragCounter c);
     isPulsing := isPulsing c; showViewer := showViewer c |}.

Definition setHasConsent (b : bool) (c : Component) : Component :=
  {| fileInfo := fileInfo c; isDragOver := isDragOver c; hasConsent := b;
     isAnalyzing := isAnalyzing c; dragCounter := dragCounter c;
     isPulsing := isPulsing c; showViewer := showViewer c |}.

Definition setShowViewer (b : bool) (c : Component) : Component :=
  {| fileInfo := fileInfo c; isDragOver := isDragOver c; hasConsent := hasConsent c;
     isAnalyzing := isAnalyzing c; dragCounter := dragCounter c;
     isPulsing := isPulsing c; showViewer := b |}.

(** [dragCounter] counts nested drag-enter events; it holds small integers,
    on which the arithmetic of numbers is exact. *)
Definition handleDragEnter (c : Component) : Component * list PageEffect :=
  (setIsDragOver true (setDragCounter (fun prev => prev + 1)%Z c),
   [PreventDefault; StopPropagation]).

(** [rendered] is [dragCounter] as the render that created this handler had
    it ([useCallback] with [dragCounter] as its dependency); the updater's
    [prev] is the state when the update is applied. The two differ when
    events are handled with no render between them. *)
Definition handleDragLeave (rendered : Z) (c : Component)
    : Component * list PageEffect :=
  let c' := setDragCounter (fun prev => prev - 1)%Z c in
  ((if (rendered <=? 1)%Z then setIsDragOver false c' else c'),
   [PreventDefault; StopPropagation]).

Definition handleDragOver (c : Component) : Component * list PageEffect :=
  (c, [PreventDefault; StopPropagation]).

(** [canAnalyze = fileInfo && hasConsent && !isAnalyzing] *)
Definition canAnalyze (c : Component) : bool :=
  match fileInfo c with
  | Some _ => hasConsent c && negb (isAnalyzing c)
  | None => false
  end.

(** The highlight of the drop zone is on exactly while the counter is
    positive. *)
Definition highlight_tracks_counter (c : Component) : Prop :=
  (0 <= dragCounter c)%Z /\ isDragOver c = (0 <? dragCounter c)%Z.

(** [handleReset]; [fileInputMounted] tells whether [fileInputRef.current]
    is set. *)
Definition handleReset (fileInputMounted : bool) (c : Component)
    : Component * list PageEffect :=
  (setIsAnalyzing false (setHasConsent false (setFileInfo None c)),
   if fileInputMounted then [ClearFileInput] else []).

Definition handleSaveImage (editedImageData : string) (c : Component)
    : Component * list PageEffect :=
  let c' :=
    match fileInfo c with
    | Some info =>
        setFileInfo (Some {| file := file info;
                             preview := Some editedImageData;
                             size_text := size_text info |}) c
    | None => c
    end in
  (setShowViewer false c',
   [Raised (Alert "Image saved successfully! Your edited image has been updated.")]).

(** Is [fileInfo.preview] truthy: a non-empty string? *)
Definition hasPreview (info : FileInfo) : bool :=
  match preview info with
  | Some s => negb (s =? "")
  | None => false
  end.

(** The props the page mounts the viewer with, when it mounts it:
    [showViewer && fileInfo && <ImageViewer ... />]. *)
Definition viewerProps (c : Component) : option ImageViewer.Props :=
  if showViewer c then
    match fileInfo c with
    | Some info =>
        Some {| ImageViewer.imageSrc :=
                  match preview info with
                  | Some s => s
                  | None => ""
                  end;
                ImageViewer.fileName := name (file info);
                ImageViewer.onClose := true;
                ImageViewer.onSave := true |}
    | None => None
    end
  else None.

Section Browser.

Variable formatFileSize : Z -> string.
Variable readAsDataURL : File -> string.

(** [files] is [e.dataTransfer.files]. *)
Definition handleDrop (files : list File) (c : Component) : Component * list PageEffect :=
  let c' := setDragCounter (fun _ => 0%Z) (setIsDragOver false c) in
  match files with
  | f :: _ =>
      let '(c'', effects) := handleFileSelect formatFileSize readAsDataURL f c' in
      (c'', PreventDefault :: StopPropagation :: map Raised effects)
  | [] => (c', [PreventDefault; StopPropagation])
  end.

(** [files] is [e.target.files], which may be null. *)
Definition handleFileInputChange (files : option (list File)) (c : Component)
    : Component * list PageEffect :=
  match files with
  | Some (f :: _) =>
      let '(c', effects) := handleFileSelect formatFileSize readAsDataURL f c in
      (c', map Raised effects)
  | _ => (c, [])
  end.

(** The page between two events: its cells with every update so far
    applied, and [dragCounter] as the last committed render had it, which is
    the value the mounted [handleDragLeave] tests. *)
Record Page := mkPage
  { cells : Component;
    renderedDragCounter : Z }.

Definition opened : Page :=
  {| cells := initial; renderedDragCounter := dragCounter initial |}.

(** What can happen on the page. [PulseTimeout] is the timer set by
    [handleFileSelect]; [ClickView] exists only while the preview is shown.
    [Render] is React committing a render of the updates made so far, which
    re-creates the handlers; when it happens between two events is React's
    choice, not the component's. *)
Inductive PageEvent :=
| DragEnter
| DragLeave
| DragOver
| Drop (files : list File)
| FileInputChange (files : option (list File))
| ChangeConsent (checked : bool)
| ClickAnalyze (onAnalyze : bool) (throws : option ThrowSite)
               (random : number) (now : string)
| ClickReset (fileInputMounted : bool)
| ClickView
| ViewerClose
| ViewerSave (editedImageData : string)
| PulseTimeout
| Render.

Definition handle (ev : PageEvent) (p : Page) : Component * list PageEffect :=
  let c := cells p in
  match ev with
  | DragEnter => handleDragEnter c
  | DragLeave => handleDragLeave (renderedDragCounter p) c
  | DragOver => handleDragOver c
  | Drop files => handleDrop files c
  | FileInputChange files => handleFileInputChange files c
  | ChangeConsent checked => (setHasConsent checked c, [])
  | ClickAnalyze onAnalyze throws random now =>
      if canAnalyze c then
        let '(c', effects) := handleAnalyze onAnalyze throws random now c in
        (c', map Raised effects)
      else (c, [])
  | ClickReset mounted => handleReset mounted c
  | ClickView =>
      match fileInfo c with
      | Some info => if hasPreview info then (setShowViewer true c, []) else (c, [])
      | None => (c, [])
      end
  | ViewerClose => (setShowViewer false c, [])
  | ViewerSave data => handleSaveImage data c
  | PulseTimeout => (setIsPulsing false c, [])
  | Render => (c, [])
  end.

Definition step (ev : PageEvent) (p : Page) : Page * list PageEffect :=
  let '(c', effects) := handle ev p in
  ({| cells := c';
      renderedDragCounter :=
        match ev with
        | Render => dragCounter c'
        | _ => renderedDragCounter p
        end |},
   effects).

Definition next (ev : PageEvent) (p : Page) : Page := fst (step ev p).

Definition run (evs : list PageEvent) (p : Page) : Page :=
  fold_left (fun p ev => next ev p) evs p.

(** Every drag-leave is handled in a state entered more often than left. *)
Fixpoint leaves_matched (evs : list PageEvent) (p : Page) : Prop :=
  match evs with
  | [] => True
  | ev :: rest =>
      (ev = DragLeave -> (1 <= dragCounter (cells p))%Z) /\
      leaves_matched rest (next ev p)
  end.

(** Every drag-leave is handled by a handler rendered with the current
    count: a render was committed after the count last changed. *)
Fixpoint leaves_rendered (evs : list PageEvent) (p : Page) : Prop :=
  match evs with
  | [] => True
  | ev :: rest =>
      (ev = DragLeave -> renderedDragCounter p = dragCounter (cells p)) /\
      leaves_rendered rest (next ev p)
  end.

End Browser.

End UploadPage.

(** ** ThemeContext.tsx *)

Module Theme.
Local Open Scope string_scope.

(** The provider's state together with what its effects act on: the stored
    ['paninsight-theme'] entry and the [dark] class of the document. *)
Record Provider := mkProvider
  { isDark : bool;
    stored : option string;
    darkClass : bool }.

(** The effect on [isDark]. *)
Definition applyTheme (p : Provider) : Provider :=
  if isDark p
  then {| isDark := isDark p; stored := Some "dark"; darkClass := true |}
  else {| isDark := isDark p; stored := Some "light"; darkClass := false |}.

(** The routes of the application; each mounts one page under the
    provider. *)
Inductive Route :=
| route_home      (* "/"       : HomePage *)
| route_upload    (* "/upload" : UploadScan *)
| route_report.   (* "/report" : AnalysisReport, with a report to show;
                     without one the page redirects to "/upload" *)

(** The page's own effect on [isDark]: [HomePage] has none; [UploadScan]
    repeats the provider's, storing the theme; [AnalysisReport] sets the
    class only. *)
Definition pageEffect (route : Route) (p : Provider) : Provider :=
  match route with
  | route_home => p
  | route_upload => applyTheme p
  | route_report =>
      {| isDark := isDark p; stored := stored p; darkClass := isDark p |}
  end.

(** The effects a commit runs when [isDark] is new: the page's first (a
    child's effects run before its parent's), then the provider's. *)
Definition commit (route : Route) (p : Provider) : Provider :=
  applyTheme (pageEffect route p).

(** Mounting on [route], with effects run once per commit in their order.
    The first render has [isDark = false]. The page's effect runs first;
    then the provider's first effect reads the stored entry, as the page's
    effect left it, and requests [isDark = (savedTheme === 'dark')]; then
    the provider's second effect applies the rendered value. If the state
    changed, the next commit runs the effects on [isDark] again.
    [savedTheme] is the stored entry and [hadDarkClass] the class as the
    document had them before. *)
Definition mount (route : Route) (savedTheme : option string) (hadDarkClass : bool)
    : Provider :=
  let rendered := {| isDark := false; stored := savedTheme; darkClass := hadDarkClass |} in
  let after_page := pageEffect route rendered in
  let requested :=
    match stored after_page with
    | Some s => s =? "dark"
    | None => false
    end in
  let committed := applyTheme after_page in
  if Bool.eqb requested (isDark committed) then committed
  else commit route {| isDark := requested; stored := stored committed;
                       darkClass := darkClass committed |}.

Definition toggleTheme (route : Route) (p : Provider) : Provider :=
  commit route {| isDark := negb (isDark p); stored := stored p; darkClass := darkClass p |}.

Definition toggles (route : Route) (n : nat) (p : Provider) : Provider :=
  Nat.iter n (toggleTheme route) p.

(** The stored entry and the document's class say what [isDark] says. *)
Definition in_sync (p : Provider) : Prop :=
  stored p = Some (if isDark p then "dark" else "light") /\ darkClass p = isDark p.

End Theme.

(** ** The report page: what it shows of a report *)

Module AnalysisReport.
Import JS UploadScan.
Local Open Scope string_scope.

Definition getRiskLevelColor (risk : string) : string :=
  if risk =? "Low" then "text-green-600 dark:text-green-400 bg-green-100 dark:bg-green-900/30"
  else if risk =? "Medium" then "text-yellow-600 dark:text-yellow-400 bg-yellow-100 dark:bg-yellow-900/30"
  else if risk =? "High" then "text-red-600 dark:text-red-400 bg-red-100 dark:bg-red-900/30"
  else "text-slate-600 dark:text-slate-400 bg-slate-100 dark:bg-slate-700".

Definition getConfidenceColor (confidence : number) : string :=
  if (80 <=? confidence)%float then "text-green-600 dark:text-green-400"
  else if (60 <=? confidence)%float then "text-yellow-600 dark:text-yellow-400"
  else "text-red-600 dark:text-red-400".

(** The string a risk level is in the report object. *)
Definition riskLevel_string (r : RiskLevel) : string :=
  match r with Low => "Low" | Medium => "Medium" | High => "High" end.

End AnalysisReport.

(** ** Further vocabulary for the image viewer *)

Module ViewerTerms.
Import JS ImageViewer.

(** The events that end a gesture. *)
Definition is_release (ev : Event) : bool :=
  match ev with MouseUp | MouseLeave | TouchEnd => true | _ => false end.

(** The keys [handleKeyDown] has a case for. *)
Definition shortcut_keys : list string :=
  ["+"; "="; "-"; "r"; "R"; "0"; "Escape"]%string.

Definition is_drawImage (call : ContextCall) : bool :=
  match call with ctx_drawImage _ _ _ _ _ => true | _ => false end.

Definition is_save (call : ContextCall) : bool :=
  match call with ctx_save => true | _ => false end.

Definition is_restore (call : ContextCall) : bool :=
  match call with ctx_restore => true | _ => false end.

(** What the viewer shows in the image area: the placeholder once the image
    failed to load, otherwise the [<img>] element (transparent until loaded)
    with the spinner while it loads. *)
Inductive ImageArea :=
| NotPreviewable
| ImgElement (opaque spinner : bool).

Definition imageArea (c : Component) : ImageArea :=
  if isImageError c then NotPreviewable
  else ImgElement (isImageLoaded c) (negb (isImageLoaded c) && negb (isImageError c)).

(** [imageRef.current]: the [<img>] element exists unless the placeholder
    replaced it. *)
Definition mountedImage (img : Image) (c : Component) : option Image :=
  if isImageError c then None else Some img.

End ViewerTerms.

(** ** Binary64 rounding, in normal form *)

Module Rounding.
Local Open Scope Z_scope.

(** What [binary_round_aux] returns once the mantissa has been cut to at most
    53 bits and rounded to [m] at exponent [e]: a carry to 2^53 moves to the
    next binade. *)
Definition finish (s : bool) (m e : Z) : spec_float :=
  if m =? 0 then S754_zero s
  else if m <? 2 ^ 53
       then (if e <=? 971 then S754_finite s (Z.to_pos m) e else S754_infinity s)
       else (if e + 1 <=? 971 then S754_finite s (Z.to_pos (2 ^ 52)) (e + 1)
             else S754_infinity s).

(** The constants of the program, as binary64 values. *)
Definition c0_1 : spec_float := Eval vm_compute in Prim2SF 0.1.
Definition c1 : spec_float := Eval vm_compute in Prim2SF 1.
Definition c1_2 : spec_float := Eval vm_compute in Prim2SF 1.2.
Definition c5 : spec_float := Eval vm_compute in Prim2SF 5.
Definition c30 : spec_float := Eval vm_compute in Prim2SF 30.

End Rounding.

(** ** Facts about binary64 arithmetic *)

Module FloatFacts.
Import JS Rounding.
Local Open Scope Z_scope.

(** *** The JavaScript primitives on examples *)

Example Math_floor_examples :
  (Math_floor 1.5 = 1 /\ Math_floor (-1.5) = -2 /\ Math_floor (-0.5) = -1 /\
   Math_floor 0.5 = 0 /\ Math_floor 29.999999999999996 = 29 /\
   Math_floor 123456.789 = 123456 /\ Math_floor 1e300 = 1e300 /\
   Math_floor infinity = infinity /\ Math_floor neg_zero = neg_zero)%float.
Proof. repeat split. Qed.

Example Math_min_max_examples :
  (Math_min 6 5 = 5 /\ Math_min 4.8 5 = 4.8 /\ Math_max 0.08 0.1 = 0.1 /\
   Math_max 0.12 0.1 = 0.12 /\ Math_min 1 nan = nan /\ Math_max nan 3 = nan /\
   Math_min 0 neg_zero = neg_zero /\ Math_max neg_zero 0 = 0)%float.
Proof. repeat split. Qed.

Example Z2number_examples :
  (Z2number 0 = 0 /\ Z2number 70 = 70 /\ Z2number 99 = 99 /\ Z2number (-3) = -3)%float.
Proof. repeat split. Qed.

Example string_examples :
  toLowerCase "Scan.DCM" = "scan.dcm"%string /\
  endsWith "scan.dcm" ".dcm" = true /\ endsWith "dcm" ".dcm" = false /\
  endsWith "scan.dcm.txt" ".dcm" = false /\ endsWith "scan" "" = true /\
  startsWith "image/png" "image/" = true /\ startsWith "application/dicom" "image/" = false.
Proof. repeat split. Qed.

(** *** Digits and right shifts *)

Lemma Zdigits2_log2 (m : Z) : 0 < m -> Zdigits2 m = Z.log2 m + 1.
Proof.
  destruct m as [|p|p]; try lia. intros _.
  assert (H : forall q, Zpos (digits2_pos q) = Zpos (Pos.size q)).
  { induction q; simpl; auto; rewrite !Pos2Z.inj_succ; lia. }
  destruct p; simpl; rewrite ?Pos2Z.inj_succ, ?H; lia.
Qed.

Lemma Zdigits2_bounds (m : Z) :
  0 < m -> 2 ^ (Zdigits2 m - 1) <= m < 2 ^ Zdigits2 m.
Proof.
  intros Hm. rewrite Zdigits2_log2 by assumption.
  replace (Z.log2 m + 1 - 1) with (Z.log2 m) by lia.
  replace (Z.log2 m + 1) with (Z.succ (Z.log2 m)) by lia.
  now apply Z.log2_spec.
Qed.

Lemma Zdigits2_unique (m d : Z) :
  0 < d -> 2 ^ (d - 1) <= m < 2 ^ d -> Zdigits2 m = d.
Proof.
  intros Hd H.
  assert (0 < m) by (pose proof (Z.pow_pos_nonneg 2 (d - 1)); lia).
  rewrite Zdigits2_log2 by assumption.
  rewrite (Z.log2_unique m (d - 1)); try lia.
  replace (Z.succ (d - 1)) with d by lia. lia.
Qed.

Lemma shr_1_m (mrs : shr_record) :
  0 <= shr_m mrs -> shr_m (shr_1 mrs) = shr_m mrs / 2.
Proof.
  destruct mrs as [m r s]; simpl. intros Hm.
  rewrite <- Z.div2_div.
  destruct m as [|[p|p|]|p]; simpl; try reflexivity; lia.
Qed.

Lemma iter_pos_shr_m (n : positive) : forall mrs,
  0 <= shr_m mrs ->
  shr_m (iter_pos shr_1 n mrs) = shr_m mrs / 2 ^ Zpos n.
Proof.
  assert (P2 : forall k, 0 < 2 ^ Zpos k) by (intros; apply Z.pow_pos_nonneg; lia).
  induction n as [n IH|n IH|]; intros mrs Hm; simpl iter_pos.
  - assert (H1 : 0 <= shr_m (shr_1 mrs)).
    { rewrite shr_1_m by assumption. apply Z.div_pos; lia. }
    assert (H2 : 0 <= shr_m (iter_pos shr_1 n (shr_1 mrs))).
    { rewrite IH by assumption. apply Z.div_pos; [assumption|apply P2]. }
    rewrite IH, IH, shr_1_m by assumption.
    rewrite !Z.div_div by (try apply P2; lia).
    f_equal. rewrite Pos2Z.inj_xI.
    replace (2 * Zpos n + 1) with (1 + Zpos n + Zpos n) by lia.
    rewrite !Z.pow_add_r by lia. change (2 ^ 1) with 2. ring.
  - assert (H2 : 0 <= shr_m (iter_pos shr_1 n mrs)).
    { rewrite IH by assumption. apply Z.div_pos; [assumption|apply P2]. }
    rewrite IH, IH by assumption.
    rewrite !Z.div_div by (try apply P2; lia).
    f_equal. rewrite <- Z.pow_add_r by lia. f_equal. lia.
  - rewrite shr_1_m by assumption. reflexivity.
Qed.

Lemma shr_record_of_loc_m m l : shr_m (shr_record_of_loc m l) = m.
Proof. destruct l as [|[]]; reflexivity. Qed.

Lemma round_nearest_even_cases m l :
  round_nearest_even m l = m \/ round_nearest_even m l = m + 1.
Proof. destruct l as [|[]]; simpl; auto. destruct (Z.even m); auto. Qed.

(** First truncation step of [binary_round_aux]. *)
Lemma shr_fexp_spec (m e : Z) (l : location) :
  0 <= m ->
  let e' := Z.max e (fexp prec emax (Zdigits2 m + e)) in
  shr_m (fst (shr_fexp prec emax m e l)) = m / 2 ^ (e' - e) /\
  snd (shr_fexp prec emax m e l) = e'.
Proof.
  intros Hm e'. unfold shr_fexp, shr.
  destruct (fexp prec emax (Zdigits2 m + e) - e) as [|n|n] eqn:En; simpl.
  - replace (e' - e) with 0 by lia. rewrite shr_record_of_loc_m, Z.div_1_r. lia.
  - rewrite iter_pos_shr_m by (rewrite shr_record_of_loc_m; assumption).
    rewrite shr_record_of_loc_m. replace (e' - e) with (Zpos n) by lia. lia.
  - replace (e' - e) with 0 by lia. rewrite shr_record_of_loc_m, Z.div_1_r. lia.
Qed.

Lemma binary_round_aux_cases (s : bool) (m e : Z) (l : location) :
  0 <= m ->
  let e' := Z.max e (fexp prec emax (Zdigits2 m + e)) in
  let m1 := m / 2 ^ (e' - e) in
  exists m2, (m2 = m1 \/ m2 = m1 + 1) /\
             binary_round_aux prec emax s m e l = finish s m2 e'.
Proof.
  intros Hm e' m1.
  destruct (shr_fexp_spec m e l Hm) as [Hm1 He1].
  fold e' in Hm1, He1. fold m1 in Hm1.
  unfold binary_round_aux.
  destruct (shr_fexp prec emax m e l) as [mrs1 e1]. simpl in Hm1, He1. subst e1.
  set (m2 := round_nearest_even (shr_m mrs1) (loc_of_shr_record mrs1)).
  exists m2. split.
  { unfold m2. rewrite <- Hm1. apply round_nearest_even_cases. }
  assert (Hemin : -1074 <= e').
  { unfold e', fexp, SpecFloat.emin, prec, emax. lia. }
  assert (Hm1b : 0 <= m1 < 2 ^ 53).
  { unfold m1. split; [apply Z.div_pos; [lia|apply Z.pow_pos_nonneg; lia]|].
    destruct (Z.eq_dec m 0) as [->|Hne]; [rewrite Z.div_0_l; [lia|]; apply Z.pow_nonzero; lia|].
    pose proof (Zdigits2_bounds m ltac:(lia)) as [_ Hd].
    assert (Hk : Zdigits2 m - 53 <= e' - e).
    { unfold e', fexp, prec. lia. }
    assert (Hk0 : 0 <= e' - e) by (unfold e'; lia).
    apply Z.div_lt_upper_bound; [apply Z.pow_pos_nonneg; lia|].
    rewrite <- Z.pow_add_r by lia.
    eapply Z.lt_le_trans; [exact Hd|]. apply Z.pow_le_mono_r; lia. }
  assert (Hm2 : 0 <= m2 <= 2 ^ 53).
  { unfold m2. rewrite Hm1.
    destruct (round_nearest_even_cases m1 (loc_of_shr_record mrs1)) as [->| ->]; lia. }
  clearbody m2. clear Hm1 mrs1.
  destruct (shr_fexp_spec m2 e' loc_Exact ltac:(lia)) as [Hm3 He3].
  destruct (shr_fexp prec emax m2 e' loc_Exact) as [mrs3 e3]. simpl in Hm3, He3.
  unfold finish.
  destruct (Z.eqb_spec m2 0) as [->|Hne].
  { rewrite Z.div_0_l in Hm3 by (apply Z.pow_nonzero; lia). rewrite Hm3. reflexivity. }
  destruct (Z.ltb_spec m2 (2 ^ 53)) as [Hlt|Hge].
  - assert (Hd : Zdigits2 m2 <= 53).
    { pose proof (Zdigits2_bounds m2 ltac:(lia)) as [Hd _].
      destruct (Z_le_gt_dec (Zdigits2 m2) 53); [assumption|].
      assert (2 ^ 53 <= 2 ^ (Zdigits2 m2 - 1)) by (apply Z.pow_le_mono_r; lia). lia. }
    assert (E : Z.max e' (fexp prec emax (Zdigits2 m2 + e')) = e').
    { unfold fexp, SpecFloat.emin, prec, emax. lia. }
    rewrite E in *. subst e3. rewrite Z.sub_diag, Z.div_1_r in Hm3. rewrite Hm3.
    destruct m2 as [|p|p]; try lia. reflexivity.
  - assert (m2 = 2 ^ 53) by lia. subst m2.
    assert (E : Z.max e' (fexp prec emax (Zdigits2 (2 ^ 53) + e')) = e' + 1).
    { change (Zdigits2 (2 ^ 53)) with 54. unfold fexp, SpecFloat.emin, prec, emax. lia. }
    rewrite E in *. subst e3.
    replace (e' + 1 - e') with 1 in Hm3 by lia.
    rewrite Hm3. reflexivity.
Qed.


Lemma SFleb_finite_pos (m1 : positive) (e1 : Z) (m2 : positive) (e2 : Z) :
  SFleb (S754_finite false m1 e1) (S754_finite false m2 e2) = true <->
  (e1 < e2 \/ (e1 = e2 /\ Zpos m1 <= Zpos m2)).
Proof.
  unfold SFleb, SFcompare.
  destruct (Z.compare_spec e1 e2) as [E|E|E].
  - change (Pos.compare_cont Eq m1 m2) with (Pos.compare m1 m2).
    destruct (Pos.compare_spec m1 m2); split; intros; try lia; try discriminate; auto.
  - split; intros; [lia|reflexivity].
  - split; intros; [discriminate|lia].
Qed.

Lemma SFltb_finite_pos (m1 : positive) (e1 : Z) (m2 : positive) (e2 : Z) :
  SFltb (S754_finite false m1 e1) (S754_finite false m2 e2) = true <->
  (e1 < e2 \/ (e1 = e2 /\ Zpos m1 < Zpos m2)).
Proof.
  unfold SFltb, SFcompare.
  destruct (Z.compare_spec e1 e2) as [E|E|E].
  - change (Pos.compare_cont Eq m1 m2) with (Pos.compare m1 m2).
    destruct (Pos.compare_spec m1 m2); split; intros; try lia; try discriminate; auto.
  - split; intros; [lia|reflexivity].
  - split; intros; [discriminate|lia].
Qed.

(** A valid finite float whose exponent lies above [emin] is normal. *)
Lemma valid_normal (s : bool) (m : positive) (e : Z) :
  valid_binary (S754_finite s m e) = true -> -1074 < e ->
  Zdigits2 (Zpos m) = 53 /\ 2 ^ 52 <= Zpos m < 2 ^ 53.
Proof.
  simpl. unfold bounded, canonical_mantissa. intros H He.
  apply andb_prop in H as [H _]. apply Z.eqb_eq in H.
  assert (Hd : Zdigits2 (Zpos m) = 53).
  { simpl. revert H. unfold fexp, SpecFloat.emin, prec, emax. lia. }
  split; [assumption|].
  pose proof (Zdigits2_bounds (Zpos m) ltac:(lia)) as Hb. rewrite Hd in Hb. exact Hb.
Qed.

Lemma SFleb_finish_lower (mc : positive) (ec m2 e' : Z) :
  0 < m2 <= 2 ^ 53 -> e' + 1 <= 971 ->
  ec < e' \/ (ec = e' /\ Zpos mc <= m2) ->
  SFleb (S754_finite false mc ec) (finish false m2 e') = true.
Proof.
  intros Hm He H. unfold finish.
  destruct (Z.eqb_spec m2 0); [lia|].
  destruct (Z.ltb_spec m2 (2 ^ 53)).
  - destruct (Z.leb_spec e' 971); [|lia].
    apply SFleb_finite_pos. rewrite Z2Pos.id by lia. exact H.
  - destruct (Z.leb_spec (e' + 1) 971); [|lia].
    apply SFleb_finite_pos. lia.
Qed.

Lemma SFleb_finish_upper (mc : positive) (ec m2 e' : Z) :
  0 <= m2 <= 2 ^ 53 -> e' + 1 <= 971 -> 2 ^ 52 <= Zpos mc < 2 ^ 53 ->
  e' < ec \/ (e' = ec /\ m2 <= Zpos mc) ->
  SFleb (finish false m2 e') (S754_finite false mc ec) = true.
Proof.
  intros Hm He Hc H. unfold finish.
  destruct (Z.eqb_spec m2 0); [reflexivity|].
  destruct (Z.ltb_spec m2 (2 ^ 53)).
  - destruct (Z.leb_spec e' 971); [|lia].
    apply SFleb_finite_pos. rewrite Z2Pos.id by lia. exact H.
  - destruct (Z.leb_spec (e' + 1) 971); [|lia].
    apply SFleb_finite_pos. change (Zpos (Z.to_pos (2 ^ 52))) with (2 ^ 52). lia.
Qed.


(** Every valid float between 0.1 and 5 is a positive normal number
    with exponent between -56 and -50. *)
Lemma zoom_range_shape (z : spec_float) :
  valid_binary z = true -> SFleb c0_1 z = true -> SFleb z c5 = true ->
  exists m e, z = S754_finite false m e /\
    2 ^ 52 <= Zpos m < 2 ^ 53 /\ Zdigits2 (Zpos m) = 53 /\
    (-56 < e \/ (e = -56 /\ 7205759403792794 <= Zpos m)) /\
    (e < -50 \/ (e = -50 /\ Zpos m <= 5629499534213120)).
Proof.
  intros Hv Hlo Hhi.
  destruct z as [[]|[]| |[] m e]; try discriminate.
  apply SFleb_finite_pos in Hlo. apply SFleb_finite_pos in Hhi.
  destruct (valid_normal false m e Hv ltac:(lia)) as [Hd Hb].
  exists m, e. repeat split; try lia; try assumption.
Qed.

Lemma SFmul_1_2_lower (z : spec_float) :
  valid_binary z = true -> SFleb c0_1 z = true -> SFleb z c5 = true ->
  SFleb c0_1 (SF64mul z c1_2) = true.
Proof.
  intros Hv Hlo Hhi.
  destruct (zoom_range_shape z Hv Hlo Hhi) as (m & e & -> & Hb & Hd & Hl & Hu).
  unfold SF64mul, SFmul, c1_2. cbv [xorb].
  rewrite Pos2Z.inj_mul.
  set (P := Zpos m * 5404319552844595).
  assert (HP : 2 ^ 104 <= P < 2 ^ 106) by (unfold P; lia).
  destruct (binary_round_aux_cases false P (e + -52) loc_Exact ltac:(lia))
    as (m2 & Hm2 & ->).
  destruct (Z_lt_le_dec P (2 ^ 105)) as [Hlt|Hge].
  - rewrite (Zdigits2_unique P 105) in * by lia.
    assert (E : Z.max (e + -52) (fexp prec emax (105 + (e + -52))) = e).
    { unfold fexp, SpecFloat.emin, prec, emax. lia. }
    rewrite E in *. replace (e - (e + -52)) with 52 in Hm2 by lia.
    assert (Hq : Zpos m <= P / 2 ^ 52 < 2 ^ 53).
    { split; [apply Z.div_le_lower_bound; unfold P; lia|
              apply Z.div_lt_upper_bound; lia]. }
    apply SFleb_finish_lower; lia.
  - rewrite (Zdigits2_unique P 106) in * by lia.
    assert (E : Z.max (e + -52) (fexp prec emax (106 + (e + -52))) = e + 1).
    { unfold fexp, SpecFloat.emin, prec, emax. lia. }
    rewrite E in *. replace (e + 1 - (e + -52)) with 53 in Hm2 by lia.
    assert (Hq : 2 ^ 52 <= P / 2 ^ 53 < 2 ^ 53).
    { split; [apply Z.div_le_lower_bound; lia|
              apply Z.div_lt_upper_bound; lia]. }
    apply SFleb_finish_lower; lia.
Qed.

Lemma SFdiv_core_1_2 (m : positive) (e : Z) :
  Zdigits2 (Zpos m) = 53 -> -1073 <= e ->
  SFdiv_core_binary prec emax (Zpos m) e 5404319552844595 (-52) =
  (Zpos m * 2 ^ 53 / 5404319552844595, e - 1,
   new_location 5404319552844595 ((Zpos m * 2 ^ 53) mod 5404319552844595)).
Proof.
  intros Hd He. unfold SFdiv_core_binary. rewrite Hd.
  change (Zdigits2 5404319552844595) with 53.
  replace (Z.min (fexp prec emax (53 + e - (53 + -52))) (e - -52)) with (e - 1)
    by (unfold fexp, SpecFloat.emin, prec, emax; lia).
  replace (e - -52 - (e - 1)) with 53 by lia.
  cbv iota. rewrite Z.shiftl_mul_pow2 by lia.
  unfold Z.div, Z.modulo.
  destruct (Z.div_eucl (Zpos m * 2 ^ 53) 5404319552844595). reflexivity.
Qed.

Lemma SFdiv_1_2_upper (z : spec_float) :
  valid_binary z = true -> SFleb c0_1 z = true -> SFleb z c5 = true ->
  SFleb (SF64div z c1_2) c5 = true.
Proof.
  intros Hv Hlo Hhi.
  destruct (zoom_range_shape z Hv Hlo Hhi) as (m & e & -> & Hb & Hd & Hl & Hu).
  unfold SF64div, SFdiv, c1_2. cbv [xorb].
  rewrite SFdiv_core_1_2 by (assumption || lia).
  set (q := Zpos m * 2 ^ 53 / 5404319552844595).
  assert (Hq : 2 ^ 52 <= q < 2 ^ 54).
  { unfold q. split; [apply Z.div_le_lower_bound; lia|
                      apply Z.div_lt_upper_bound; lia]. }
  destruct (binary_round_aux_cases false q (e - 1)
              (new_location 5404319552844595 ((Zpos m * 2 ^ 53) mod 5404319552844595))
              ltac:(lia)) as (m2 & Hm2 & ->).
  destruct (Z_lt_le_dec q (2 ^ 53)) as [Hlt|Hge].
  - rewrite (Zdigits2_unique q 53) in * by lia.
    assert (E : Z.max (e - 1) (fexp prec emax (53 + (e - 1))) = e - 1).
    { unfold fexp, SpecFloat.emin, prec, emax. lia. }
    rewrite E in *. rewrite Z.sub_diag, Z.div_1_r in Hm2.
    clearbody q. apply SFleb_finish_upper; lia.
  - rewrite (Zdigits2_unique q 54) in * by lia.
    assert (E : Z.max (e - 1) (fexp prec emax (54 + (e - 1))) = e).
    { unfold fexp, SpecFloat.emin, prec, emax. lia. }
    rewrite E in *. replace (e - (e - 1)) with 1 in Hm2 by lia.
    change (2 ^ 1) with 2 in Hm2.
    assert (Hq2 : q <= 5629499534213120 * 2 ^ 53 / 5404319552844595 \/ e < -50).
    { destruct Hu as [Hu|[_ Hu]]; [right; lia|left].
      unfold q. apply Z.div_le_mono; lia. }
    change (5629499534213120 * 2 ^ 53 / 5404319552844595) with 9382499223688533 in Hq2.
    clearbody q.
    assert (Hh : 0 <= q / 2 < 2 ^ 53).
    { split; [apply Z.div_pos; lia|apply Z.div_lt_upper_bound; lia]. }
    assert (Hh2 : q <= 9382499223688533 -> q / 2 < 5629499534213120).
    { intros. apply Z.div_lt_upper_bound; lia. }
    apply SFleb_finish_upper; lia.
Qed.

(** *** Comparisons *)

Lemma SFcompare_antisym (x y : spec_float) :
  SFcompare y x = option_map CompOpp (SFcompare x y).
Proof.
  destruct x as [[]|[]| |[] mx ex], y as [[]|[]| |[] my ey]; try reflexivity; simpl;
    rewrite (Z.compare_antisym ex ey); destruct (ex ?= ey)%Z; simpl; try reflexivity;
    change (Pos.compare_cont Eq my mx) with (Pos.compare_cont (CompOpp Eq) my mx);
    rewrite <- (Pos.compare_cont_antisym mx my Eq);
    destruct (Pos.compare_cont Eq mx my); reflexivity.
Qed.

Lemma SFcompare_refl (x : spec_float) :
  x <> S754_nan -> SFcompare x x = Some Eq.
Proof.
  destruct x as [[]|[]| |[] m e]; intros H; try reflexivity; try congruence; simpl;
    rewrite Z.compare_refl; change (Pos.compare_cont Eq m m) with (Pos.compare m m);
    rewrite Pos.compare_refl; reflexivity.
Qed.

Lemma SFcompare_nan_r x : SFcompare x S754_nan = None.
Proof. destruct x; reflexivity. Qed.

Lemma is_nan_false_iff (a : float) : is_nan a = false <-> Prim2SF a <> S754_nan.
Proof.
  unfold is_nan. rewrite eqb_spec. unfold SFeqb. split.
  - intros H E. rewrite E in H. discriminate.
  - intros H. rewrite SFcompare_refl by assumption. reflexivity.
Qed.

Lemma leb_not_nan (a b : float) :
  (a <=? b)%float = true -> is_nan a = false /\ is_nan b = false.
Proof.
  rewrite leb_spec. unfold SFleb. intros H.
  split; apply is_nan_false_iff; intros E; rewrite E in H;
    [|rewrite SFcompare_nan_r in H]; discriminate.
Qed.

Lemma leb_refl (a : float) : is_nan a = false -> (a <=? a)%float = true.
Proof.
  intros H. apply is_nan_false_iff in H. rewrite leb_spec. unfold SFleb.
  rewrite SFcompare_refl by assumption. reflexivity.
Qed.

Lemma ltb_leb (a b : float) : (a <? b)%float = true -> (a <=? b)%float = true.
Proof.
  rewrite ltb_spec, leb_spec. unfold SFltb, SFleb.
  destruct (SFcompare (Prim2SF a) (Prim2SF b)) as [[]|]; congruence.
Qed.

Lemma SFcompare_total (x y : spec_float) :
  x <> S754_nan -> y <> S754_nan -> exists c, SFcompare x y = Some c.
Proof.
  destruct x as [[]|[]| |[] mx ex], y as [[]|[]| |[] my ey];
    intros Hx Hy; try congruence; simpl; eauto.
Qed.

Lemma not_ltb_leb (a b : float) :
  is_nan a = false -> is_nan b = false -> (a <? b)%float = false -> (b <=? a)%float = true.
Proof.
  intros Ha Hb. apply is_nan_false_iff in Ha, Hb.
  rewrite ltb_spec, leb_spec. unfold SFltb, SFleb.
  rewrite (SFcompare_antisym (Prim2SF a) (Prim2SF b)).
  destruct (SFcompare_total _ _ Ha Hb) as [c ->].
  destruct c; simpl; congruence.
Qed.

Lemma leb_not_ltb (a b : float) : (a <=? b)%float = true -> (b <? a)%float = false.
Proof.
  rewrite ltb_spec, leb_spec. unfold SFltb, SFleb.
  rewrite (SFcompare_antisym (Prim2SF a) (Prim2SF b)).
  destruct (SFcompare (Prim2SF a) (Prim2SF b)) as [[]|]; simpl; congruence.
Qed.

Lemma Math_min_spec (a b : number) :
  is_nan a = false -> is_nan b = false ->
  (Math_min a b = a \/ Math_min a b = b) /\
  (Math_min a b <=? a)%float = true /\ (Math_min a b <=? b)%float = true.
Proof.
  intros Ha Hb. unfold Math_min. rewrite Ha, Hb. simpl.
  destruct (a <? b)%float eqn:Hab.
  { auto using leb_refl, ltb_leb. }
  destruct (b <? a)%float eqn:Hba.
  { auto using leb_refl, ltb_leb. }
  destruct (get_sign a); auto 6 using leb_refl, not_ltb_leb.
Qed.

Lemma Math_max_spec (a b : number) :
  is_nan a = false -> is_nan b = false ->
  (Math_max a b = a \/ Math_max a b = b) /\
  (a <=? Math_max a b)%float = true /\ (b <=? Math_max a b)%float = true.
Proof.
  intros Ha Hb. unfold Math_max. rewrite Ha, Hb. simpl.
  destruct (a <? b)%float eqn:Hab.
  { auto using leb_refl, ltb_leb. }
  destruct (b <? a)%float eqn:Hba.
  { auto using leb_refl, ltb_leb. }
  destruct (get_sign a); auto 6 using leb_refl, not_ltb_leb.
Qed.

Lemma ltb_not_nan (a b : float) :
  (a <? b)%float = true -> is_nan a = false /\ is_nan b = false.
Proof. intros H. apply leb_not_nan, ltb_leb, H. Qed.

Lemma ltb_asym (a b : float) : (a <? b)%float = true -> (b <? a)%float = false.
Proof. intros H. apply leb_not_ltb, ltb_leb, H. Qed.

(** Below the bound [Math.min] returns its first argument, above it the bound. *)
Lemma Math_min_clamp (a b : number) :
  ((a <? b)%float = true -> Math_min a b = a) /\
  ((b <? a)%float = true -> Math_min a b = b).
Proof.
  unfold Math_min. split; intros H; destruct (ltb_not_nan _ _ H) as [H1 H2];
    rewrite ?H1, ?H2; simpl; rewrite ?H; [reflexivity|].
  rewrite (ltb_asym _ _ H). reflexivity.
Qed.

Lemma Math_max_clamp (a b : number) :
  ((b <? a)%float = true -> Math_max a b = a) /\
  ((a <? b)%float = true -> Math_max a b = b).
Proof.
  unfold Math_max. split; intros H; destruct (ltb_not_nan _ _ H) as [H1 H2];
    rewrite ?H1, ?H2; simpl; rewrite ?H; [|reflexivity].
  rewrite (ltb_asym _ _ H). reflexivity.
Qed.

Lemma mul_1_2_lower (z : float) :
  (0.1 <=? z)%float = true -> (z <=? 5)%float = true ->
  (0.1 <=? z * 1.2)%float = true.
Proof.
  rewrite !leb_spec, mul_spec. intros H1 H2.
  apply SFmul_1_2_lower; solve [apply Prim2SF_valid | assumption].
Qed.

Lemma div_1_2_upper (z : float) :
  (0.1 <=? z)%float = true -> (z <=? 5)%float = true ->
  (z / 1.2 <=? 5)%float = true.
Proof.
  rewrite !leb_spec, div_spec. intros H1 H2.
  apply SFdiv_1_2_upper; solve [apply Prim2SF_valid | assumption].
Qed.

Lemma zero_div_pos (z : float) :
  (0.1 <=? z)%float = true -> (0 / z)%float = 0%float.
Proof.
  rewrite leb_spec. intros H. apply Prim2SF_inj. rewrite div_spec.
  change (Prim2SF 0.1) with c0_1 in H.
  destruct (Prim2SF z) as [[]|[]| |[] m e]; try discriminate; reflexivity.
Qed.

(** *** The product with 30 of a number in [0, 1) *)

Lemma unit_range_shape (r : spec_float) :
  valid_binary r = true ->
  SFleb (S754_zero false) r = true -> SFltb r c1 = true ->
  (exists s, r = S754_zero s) \/
  (exists m e, r = S754_finite false m e /\ 0 < Zpos m < 2 ^ 53 /\
     -1074 <= e <= -53 /\ (e = -53 -> 2 ^ 52 <= Zpos m)).
Proof.
  intros Hv Hlo Hhi.
  destruct r as [s|[]| |[] m e]; try discriminate; [left; eauto|right].
  apply SFltb_finite_pos in Hhi.
  assert (Hc : fexp prec emax (Zdigits2 (Zpos m) + e) = e).
  { simpl in Hv. unfold bounded, canonical_mantissa in Hv.
    apply andb_prop in Hv as [Hv _]. apply Z.eqb_eq in Hv. exact Hv. }
  pose proof (Zdigits2_bounds (Zpos m) ltac:(lia)) as Hb.
  unfold fexp, SpecFloat.emin, prec, emax in Hc.
  assert (Hd : Zdigits2 (Zpos m) <= 53) by lia.
  assert (Hm : Zpos m < 2 ^ 53).
  { eapply Z.lt_le_trans; [apply Hb|]. apply Z.pow_le_mono_r; lia. }
  assert (Hn : -1074 < e -> 2 ^ 52 <= Zpos m).
  { intros He. assert (Zdigits2 (Zpos m) = 53) as E by lia. rewrite E in Hb. apply Hb. }
  assert (He : e <= -53).
  { destruct (Z_le_gt_dec e (-53)); [assumption|].
    specialize (Hn ltac:(lia)). lia. }
  exists m, e. repeat split; try lia.
Qed.

Lemma finish_below_30 (m2 e' : Z) :
  0 <= m2 <= 2 ^ 53 -> e' <= -48 ->
  (m2 < 2 ^ 53 -> m2 < 30 * 2 ^ (- e')) ->
  (m2 = 2 ^ 53 -> e' <= -49) ->
  (exists s, finish false m2 e' = S754_zero s) \/
  (exists m e, finish false m2 e' = S754_finite false m e /\
     e < 0 /\ Zpos m < 30 * 2 ^ (- e)).
Proof.
  intros Hm He Hlt Heq. unfold finish.
  destruct (Z.eqb_spec m2 0); [left; eauto|right].
  destruct (Z.ltb_spec m2 (2 ^ 53)).
  - destruct (Z.leb_spec e' 971); [|lia].
    exists (Z.to_pos m2), e'. rewrite Z2Pos.id by lia.
    split; [reflexivity|]. split; [lia|auto].
  - destruct (Z.leb_spec (e' + 1) 971); [|lia].
    eexists _, _. split; [reflexivity|]. split; [lia|].
    change (Zpos (Z.to_pos (2 ^ 52))) with (2 ^ 52).
    assert (2 ^ 48 <= 2 ^ (- (e' + 1))) by (apply Z.pow_le_mono_r; lia). lia.
Qed.

Lemma SFmul_30_shape (r : spec_float) :
  valid_binary r = true ->
  SFleb (S754_zero false) r = true -> SFltb r c1 = true ->
  (exists s, SF64mul r c30 = S754_zero s) \/
  (exists m e, SF64mul r c30 = S754_finite false m e /\
     e < 0 /\ Zpos m < 30 * 2 ^ (- e)).
Proof.
  intros Hv Hlo Hhi.
  destruct (unit_range_shape r Hv Hlo Hhi) as [[s ->]|(m & e & -> & Hm & He & Hn)].
  { left. exists s. destruct s; reflexivity. }
  assert (Hmax : (m = 9007199254740991%positive /\ e = -53) \/
                 (e = -53 -> Zpos m <= 2 ^ 53 - 2)) by lia.
  destruct Hmax as [[-> ->]|Hmax].
  { (* the largest double below 1: its product rounds down *)
    right. vm_compute. eexists _, _. split; [reflexivity|]. split; reflexivity. }
  unfold SF64mul, SFmul, c30. cbv [xorb].
  rewrite Pos2Z.inj_mul.
  set (P := Zpos m * 8444249301319680).
  assert (HP : 2 ^ 52 <= P < 2 ^ 106) by (unfold P; lia).
  destruct (binary_round_aux_cases false P (e + -48) loc_Exact ltac:(lia))
    as (m2 & Hm2 & ->).
  pose proof (Zdigits2_bounds P ltac:(lia)) as Hd.
  assert (Hd106 : Zdigits2 P <= 106).
  { destruct (Z_le_gt_dec (Zdigits2 P) 106); [assumption|].
    assert (2 ^ 106 <= 2 ^ (Zdigits2 P - 1)) by (apply Z.pow_le_mono_r; lia). lia. }
  set (e' := Z.max (e + -48) (fexp prec emax (Zdigits2 P + (e + -48)))) in *.
  assert (He' : e + -48 <= e' /\ Zdigits2 P + e - 101 <= e' /\ -1074 <= e' /\
                (e' = e + -48 \/ e' = Zdigits2 P + e - 101 \/ e' = -1074)).
  { unfold e', fexp, SpecFloat.emin, prec, emax. lia. }
  assert (Hm2b : 0 <= m2 <= 2 ^ 53).
  { assert (0 <= P / 2 ^ (e' - (e + -48)) < 2 ^ 53); [|lia].
    split; [apply Z.div_pos; [lia|apply Z.pow_pos_nonneg; lia]|].
    apply Z.div_lt_upper_bound; [apply Z.pow_pos_nonneg; lia|].
    rewrite <- Z.pow_add_r by lia.
    eapply Z.lt_le_trans; [apply Hd|]. apply Z.pow_le_mono_r; lia. }
  destruct (Z.eq_dec e (-53)) as [->|Hne].
  - (* the binade just below 1 *)
    specialize (Hn eq_refl).
    assert (HP' : 2 ^ 104 <= P) by (unfold P; lia).
    destruct (Z_lt_le_dec P (2 ^ 105)) as [Hlt|Hge].
    + assert (E : e' = -49).
      { unfold e'. rewrite (Zdigits2_unique P 105) by lia.
        unfold fexp, SpecFloat.emin, prec, emax. lia. }
      apply finish_below_30; try lia.
      rewrite E. change (2 ^ (- -49)) with (2 ^ 49). lia.
    + assert (E : e' = -48).
      { unfold e'. rewrite (Zdigits2_unique P 106) by lia.
        unfold fexp, SpecFloat.emin, prec, emax. lia. }
      assert (Hle : Zpos m <= 2 ^ 53 - 2) by (apply Hmax; reflexivity).
      assert (Hq : P / 2 ^ 53 < 15 * 2 ^ 49 - 1).
      { apply Z.div_lt_upper_bound; [lia|]. unfold P. lia. }
      rewrite E in Hm2. replace (-48 - (-53 + -48)) with 53 in Hm2 by lia.
      apply finish_below_30; try lia.
      rewrite E. change (2 ^ (- -48)) with (2 ^ 48). lia.
  - (* at most one half: the exponent alone bounds the product *)
    assert (E : e' <= -49) by lia.
    assert (Hpow : 2 ^ 49 <= 2 ^ (- e')) by (apply Z.pow_le_mono_r; lia).
    apply finish_below_30; lia.
Qed.

Lemma Z2number_add_70_table :
  forallb (fun k => PrimFloat.Leibniz.eqb (Z2number k + 70)%float (Z2number (70 + k)))
          (map Z.of_nat (seq 0 30)) = true.
Proof. vm_compute. reflexivity. Qed.

Lemma Z2number_add_70 (k : Z) :
  0 <= k <= 29 -> (Z2number k + 70)%float = Z2number (70 + k).
Proof.
  intros Hk. apply FloatAxioms.Leibniz.eqb_spec.
  pose proof Z2number_add_70_table as T. rewrite forallb_forall in T.
  apply T. replace k with (Z.of_nat (Z.to_nat k)) by lia.
  apply in_map, in_seq. lia.
Qed.

Lemma floor_random_30 (r : float) :
  (0 <=? r)%float = true -> (r <? 1)%float = true ->
  exists k, 0 <= k <= 29 /\ (Math_floor (r * 30) + 70)%float = Z2number (70 + k).
Proof.
  rewrite leb_spec, ltb_spec. intros Hlo Hhi.
  pose proof (SFmul_30_shape (Prim2SF r) (Prim2SF_valid r) Hlo Hhi) as H.
  change c30 with (Prim2SF 30) in H. rewrite <- mul_spec in H.
  unfold Math_floor.
  destruct H as [[s Hs]|(m & e & Hs & He & Hm)]; rewrite Hs.
  - exists 0. split; [lia|]. apply Prim2SF_inj. rewrite add_spec, Hs.
    destruct s; reflexivity.
  - destruct (Z.leb_spec 0 e) as [|_]; [lia|].
    cbv [cond_Zopp]. rewrite Z.shiftr_div_pow2 by lia.
    set (k := Zpos m / 2 ^ (- e)).
    assert (Hk : 0 <= k <= 29).
    { assert (0 < 2 ^ (- e)) by (apply Z.pow_pos_nonneg; lia).
      assert (k < 30) by (apply Z.div_lt_upper_bound; lia).
      assert (0 <= k) by (apply Z.div_pos; lia). lia. }
    exists k. split; [assumption|]. apply Z2number_add_70. assumption.
Qed.

(** *** Whole numbers and the conversion to [unsigned long] *)

Lemma iter_xO_mul (d : positive) (m : positive) :
  Zpos (Pos.iter xO m d) = Zpos m * 2 ^ Zpos d.
Proof.
  induction d as [|d IH] using Pos.peano_ind.
  - simpl. lia.
  - rewrite Pos.iter_succ, Pos2Z.inj_xO, IH, Pos2Z.inj_succ, Z.pow_succ_r by lia. ring.
Qed.

Lemma binary_round_aux_exact (s : bool) (m : positive) (e : Z) :
  Zdigits2 (Zpos m) = 53 -> -1074 <= e <= 971 ->
  binary_round_aux prec emax s (Zpos m) e loc_Exact = S754_finite s m e.
Proof.
  intros Hd He.
  assert (F : fexp prec emax (Zdigits2 (Zpos m) + e) - e = 0).
  { rewrite Hd. unfold fexp, SpecFloat.emin, prec, emax. lia. }
  unfold binary_round_aux, shr_fexp. rewrite F. simpl shr.
  cbv beta iota. simpl shr_m. simpl loc_of_shr_record. simpl round_nearest_even.
  rewrite F. simpl.
  destruct (Z.leb_spec e 971) as [_|H]; [reflexivity|lia].
Qed.

(** The number holding a positive integer below 2^53 holds it exactly. *)
Lemma Z2number_shape (n : Z) :
  0 < n < 2 ^ 53 ->
  Prim2SF (Z2number n)
    = S754_finite false (Z.to_pos (n * 2 ^ (53 - Zdigits2 n))) (Zdigits2 n - 53).
Proof.
  intros Hn.
  pose proof (Zdigits2_bounds n ltac:(lia)) as [Hlo Hhi].
  assert (Hd : 1 <= Zdigits2 n <= 53).
  { split.
    - destruct (Z_le_gt_dec 1 (Zdigits2 n)); [assumption|].
      assert (2 ^ Zdigits2 n <= 2 ^ 0).
      { destruct (Z_le_gt_dec 0 (Zdigits2 n)).
        - apply Z.pow_le_mono_r; lia.
        - rewrite Z.pow_neg_r by lia. simpl. lia. }
      simpl in *. lia.
    - destruct (Z_le_gt_dec (Zdigits2 n) 53); [assumption|].
      assert (2 ^ 53 <= 2 ^ (Zdigits2 n - 1)) by (apply Z.pow_le_mono_r; lia). lia. }
  set (d := Zdigits2 n) in *.
  assert (Hshift : 2 ^ 52 <= n * 2 ^ (53 - d) < 2 ^ 53).
  { assert (P : 0 < 2 ^ (53 - d)) by (apply Z.pow_pos_nonneg; lia).
    assert (E1 : 2 ^ 52 = 2 ^ (d - 1) * 2 ^ (53 - d)).
    { rewrite <- Z.pow_add_r by lia. f_equal. lia. }
    assert (E2 : 2 ^ 53 = 2 ^ d * 2 ^ (53 - d)).
    { rewrite <- Z.pow_add_r by lia. f_equal. lia. }
    rewrite E1, E2. clearbody d. split.
    - apply Z.mul_le_mono_nonneg_r; lia.
    - apply Z.mul_lt_mono_pos_r; lia. }
  assert (Hdig : Zdigits2 (n * 2 ^ (53 - d)) = 53).
  { apply Zdigits2_unique; [lia|]. exact Hshift. }
  assert (R : binary_normalize prec emax n 0 false
              = S754_finite false (Z.to_pos (n * 2 ^ (53 - d))) (d - 53)).
  { destruct n as [|p|p]; try lia. unfold binary_normalize, binary_round, shl_align.
    replace (Z.pos (digits2_pos p)) with d by reflexivity.
    assert (F : fexp prec emax (d + 0) = d - 53).
    { unfold fexp, SpecFloat.emin, prec, emax. lia. }
    rewrite F.
    destruct (d - 53 - 0) as [|k|k] eqn:Ek; try lia.
    - assert (d = 53) by lia.
      replace (53 - d) with 0 in * by lia. rewrite Z.mul_1_r in *.
      rewrite binary_round_aux_exact by (assumption || lia).
      f_equal. lia.
    - assert (Hk : Zpos k = 53 - d) by lia.
      assert (Em : Zpos (Pos.iter xO p k) = Zpos p * 2 ^ (53 - d)).
      { rewrite iter_xO_mul, Hk. reflexivity. }
      rewrite binary_round_aux_exact.
      + f_equal. rewrite <- Em. reflexivity.
      + rewrite Em. exact Hdig.
      + lia. }
  unfold Z2number. rewrite R. apply Prim2SF_SF2Prim.
  unfold valid_binary, SpecFloat.valid_binary, bounded, canonical_mantissa.
  assert (Ed : Z.pos (digits2_pos (Z.to_pos (n * 2 ^ (53 - d)))) = 53).
  { destruct (n * 2 ^ (53 - d)) eqn:E; try lia. exact Hdig. }
  rewrite Ed. apply andb_true_intro. split.
  - apply Z.eqb_eq. unfold fexp, SpecFloat.emin, prec, emax. lia.
  - apply Z.leb_le. unfold emax, prec. lia.
Qed.

Lemma valid_finite_bounds (s : bool) (m : positive) (e : Z) :
  valid_binary (S754_finite s m e) = true ->
  -1074 <= e <= 971 /\ Zpos m < 2 ^ 53 /\ (-1074 < e -> 2 ^ 52 <= Zpos m).
Proof.
  intros H. pose proof H as H0.
  unfold valid_binary, SpecFloat.valid_binary, bounded, canonical_mantissa in H.
  apply andb_prop in H as [H1 H2]. apply Z.eqb_eq in H1. apply Z.leb_le in H2.
  change (Z.pos (digits2_pos m)) with (Zdigits2 (Zpos m)) in H1.
  pose proof (Zdigits2_bounds (Zpos m) ltac:(lia)) as [_ Hhi].
  assert (Hd : Zdigits2 (Zpos m) <= 53 /\ -1074 <= e).
  { revert H1. unfold fexp, SpecFloat.emin, prec, emax. lia. }
  split; [unfold emax, prec in H2; lia|]. split.
  - eapply Z.lt_le_trans; [exact Hhi|]. apply Z.pow_le_mono_r; lia.
  - intros He. apply (valid_normal s m e H0 He).
Qed.

Lemma ToUint32_Z2number (n : Z) : 0 <= n < 2 ^ 32 -> ToUint32 (Z2number n) = n.
Proof.
  intros Hn. destruct (Z.eq_dec n 0) as [->|Hne]; [reflexivity|].
  assert (Hn53 : 0 < n < 2 ^ 53).
  { split; [lia|]. eapply Z.lt_le_trans; [apply Hn|]. apply Z.pow_le_mono_r; lia. }
  pose proof (Zdigits2_bounds n ltac:(lia)) as [Hlo Hhi].
  assert (Hd : Zdigits2 n <= 53).
  { destruct (Z_le_gt_dec (Zdigits2 n) 53); [assumption|].
    assert (2 ^ 53 <= 2 ^ (Zdigits2 n - 1)) by (apply Z.pow_le_mono_r; lia). lia. }
  unfold ToUint32. rewrite (Z2number_shape n Hn53).
  assert (P : 0 < 2 ^ (53 - Zdigits2 n)) by (apply Z.pow_pos_nonneg; lia).
  rewrite Z2Pos.id by (apply Z.mul_pos_pos; lia).
  rewrite Z.shiftr_div_pow2 by lia.
  replace (- (Zdigits2 n - 53)) with (53 - Zdigits2 n) by lia.
  rewrite Z.div_mul by lia. simpl cond_Zopp. apply Z.mod_small. lia.
Qed.

(** Below 2^31, the conversion of a non-negative number is its whole part. *)
Lemma ToUint32_whole_part (x : float) :
  (0 <=? x)%float = true -> (x <? 2147483648)%float = true ->
  0 <= ToUint32 x <= 2147483647 /\
  (Z2number (ToUint32 x) <=? x)%float = true /\
  (x <? Z2number (ToUint32 x + 1))%float = true.
Proof.
  rewrite leb_spec, ltb_spec. intros Hlo Hhi.
  rewrite leb_spec, ltb_spec.
  pose proof (Prim2SF_valid x) as Hv.
  unfold ToUint32.
  change (Prim2SF 0) with (S754_zero false) in Hlo.
  change (Prim2SF 2147483648) with (S754_finite false 4503599627370496 (-21)) in Hhi.
  destruct (Prim2SF x) as [s|[]| |[] m e] eqn:Ex; try discriminate.
  - split; [lia|]. split; [destruct s; reflexivity|destruct s; reflexivity].
  - apply SFltb_finite_pos in Hhi.
    destruct (valid_finite_bounds false m e Hv) as (He & Hm & Hnorm).
    assert (Hk : e <= -22) by lia.
    simpl cond_Zopp.
    rewrite Z.shiftr_div_pow2 by lia.
    set (k := - e) in *. assert (Ek : e = - k) by (unfold k; lia).
    assert (Pk : 0 < 2 ^ k) by (apply Z.pow_pos_nonneg; lia).
    set (n := Zpos m / 2 ^ k).
    assert (Hn0 : 0 <= n) by (apply Z.div_pos; lia).
    assert (Hn31 : n < 2 ^ 31).
    { apply Z.div_lt_upper_bound; [lia|].
      eapply Z.lt_le_trans; [exact Hm|].
      rewrite <- Z.pow_add_r by lia. apply Z.pow_le_mono_r; lia. }
    assert (Hmul : 2 ^ k * n <= Zpos m) by (apply Z.mul_div_le; lia).
    assert (Hmod : Zpos m < 2 ^ k * (n + 1)).
    { pose proof (Z.mod_pos_bound (Zpos m) (2 ^ k) Pk) as B.
      pose proof (Z.div_mod (Zpos m) (2 ^ k) ltac:(lia)) as D. fold n in D. lia. }
    rewrite Z.mod_small by lia.
    split; [lia|].
    destruct (Z.eq_dec n 0) as [E0|Hne].
    + rewrite E0. change (Prim2SF (Z2number 0)) with (S754_zero false).
      change (Prim2SF (Z2number (0 + 1))) with (S754_finite false 4503599627370496 (-52)).
      split; [reflexivity|].
      apply SFltb_finite_pos. rewrite E0 in Hmod.
      destruct (Z_le_gt_dec k 52) as [Hle|Hgt]; [|lia].
      assert (2 ^ k <= 2 ^ 52) by (apply Z.pow_le_mono_r; lia).
      assert (2 ^ 52 <= Zpos m) by (apply Hnorm; lia). lia.
    + assert (Hk52 : k <= 52).
      { destruct (Z_le_gt_dec k 52) as [Hle|Hgt]; [assumption|].
        assert (2 ^ 53 <= 2 ^ k) by (apply Z.pow_le_mono_r; lia).
        assert (n = 0) by (apply Z.div_small; lia). lia. }
      assert (Hm52 : 2 ^ 52 <= Zpos m) by (apply Hnorm; lia).
      assert (E52 : 2 ^ 52 = 2 ^ k * 2 ^ (52 - k)).
      { rewrite <- Z.pow_add_r by lia. f_equal. lia. }
      assert (E53 : 2 ^ 53 = 2 ^ k * 2 ^ (53 - k)).
      { rewrite <- Z.pow_add_r by lia. f_equal. lia. }
      assert (Q : 2 ^ (53 - k) = 2 * 2 ^ (52 - k)).
      { rewrite <- Z.pow_succ_r by lia. f_equal. lia. }
      assert (Hnlo : 2 ^ (52 - k) <= n).
      { apply Z.div_le_lower_bound; [lia|]. lia. }
      assert (Hnhi : n < 2 ^ (53 - k)).
      { apply Z.div_lt_upper_bound; [lia|]. lia. }
      assert (Dn : Zdigits2 n = 53 - k).
      { apply Zdigits2_unique; [lia|]. replace (53 - k - 1) with (52 - k) by lia. lia. }
      assert (H53 : 2 ^ (53 - k) <= 2 ^ 31) by (apply Z.pow_le_mono_r; lia).
      assert (H3153 : 2 ^ 31 < 2 ^ 53) by reflexivity.
      split.
      * rewrite (Z2number_shape n) by lia. rewrite Dn.
        replace (53 - (53 - k)) with k by lia.
        apply SFleb_finite_pos. right. split; [lia|].
        rewrite Z2Pos.id by (apply Z.mul_pos_pos; lia). lia.
      * rewrite (Z2number_shape (n + 1)) by lia.
        apply SFltb_finite_pos.
        destruct (Z.eq_dec (n + 1) (2 ^ (53 - k))) as [Etop|Hlt].
        -- left.
           assert (Dn1 : Zdigits2 (n + 1) = 54 - k).
           { apply Zdigits2_unique; [lia|].
             replace (54 - k - 1) with (53 - k) by lia.
             split; [lia|]. rewrite Etop. apply Z.pow_lt_mono_r; lia. }
           rewrite Dn1. lia.
        -- right.
           assert (Dn1 : Zdigits2 (n + 1) = 53 - k).
           { apply Zdigits2_unique; [lia|].
             replace (53 - k - 1) with (52 - k) by lia. lia. }
           rewrite Dn1. replace (53 - (53 - k)) with k by lia.
           split; [lia|].
           rewrite Z2Pos.id by (apply Z.mul_pos_pos; lia). lia.
Qed.

End FloatFacts.

(** ** Properties of the image viewer *)

Module ViewerFacts.
Import JS ImageViewer Scenario FloatFacts.
Local Open Scope float_scope.

(** *** Zoom *)

Lemma handleZoom_in_range (d : Direction) (c : Component) :
  zoom_in_range c -> zoom_in_range (handleZoom d c).
Proof.
  unfold zoom_in_range. intros [Hlo Hhi]. destruct d; simpl.
  - pose proof (mul_1_2_lower _ Hlo Hhi) as Ha.
    destruct (leb_not_nan _ _ Ha) as [_ Hnan].
    destruct (Math_min_spec (zoom (viewerState c) * 1.2) 5 Hnan eq_refl)
      as ([E|E] & _ & Hle); rewrite E in *; split; auto.
  - pose proof (div_1_2_upper _ Hlo Hhi) as Ha.
    destruct (leb_not_nan _ _ Ha) as [Hnan _].
    destruct (Math_max_spec (zoom (viewerState c) / 1.2) 0.1 Hnan eq_refl)
      as ([E|E] & _ & Hle); rewrite E in *; split; auto.
Qed.

Lemma zoom_commands_in_range (cmds : list Direction) : forall c,
  zoom_in_range c ->
  zoom_in_range (fold_left (fun c d => handleZoom d c) cmds c).
Proof.
  induction cmds as [|d cmds IH]; intros c H; simpl; [assumption|].
  apply IH, handleZoom_in_range, H.
Qed.

(** Saving changes no state. *)
Lemma handleSave_state (props : Props) (imageRef : option Image) (context2d : bool)
    (c : Component) :
  fst (handleSave props imageRef context2d c) = c.
Proof.
  unfold handleSave. destruct imageRef; [destruct (negb context2d)|]; reflexivity.
Qed.

(** C1. From any zoom in [0.1, 5], every sequence of zoom-in and zoom-out
    commands leaves the zoom in [0.1, 5]. Zoom-in is [min (zoom * 1.2) 5]:
    the product while it is below 5, and 5 once it is above; zoom-out is
    [max (zoom / 1.2) 0.1]: the quotient while it is above 0.1, and 0.1 once
    it is below. At a bound the command leaves the zoom at the bound. *)
Theorem zoom_stays_within_bounds (c : Component) (cmds : list Direction) :
  zoom_in_range c ->
  let z := zoom (viewerState c) in
  zoom_in_range (fold_left (fun c d => handleZoom d c) cmds c) /\
  (zoom (viewerState (handleZoom zoom_in c)) = Math_min (z * 1.2) 5 /\
   ((z * 1.2 <? 5) = true -> zoom (viewerState (handleZoom zoom_in c)) = z * 1.2) /\
   ((5 <? z * 1.2) = true -> zoom (viewerState (handleZoom zoom_in c)) = 5)) /\
  (zoom (viewerState (handleZoom zoom_out c)) = Math_max (z / 1.2) 0.1 /\
   ((0.1 <? z / 1.2) = true -> zoom (viewerState (handleZoom zoom_out c)) = z / 1.2) /\
   ((z / 1.2 <? 0.1) = true -> zoom (viewerState (handleZoom zoom_out c)) = 0.1)) /\
  (z = 5 -> zoom (viewerState (handleZoom zoom_in c)) = 5) /\
  (z = 0.1 -> zoom (viewerState (handleZoom zoom_out c)) = 0.1).
Proof.
  intros H z. split; [apply zoom_commands_in_range, H|].
  split; [split; [reflexivity|apply Math_min_clamp]|].
  split; [split; [reflexivity|apply Math_max_clamp]|].
  split; intros E; simpl; fold z; rewrite E; reflexivity.
Qed.

Lemma zoom_stays_within_bounds_witness :
  zoom_in_range
    (fold_left (fun c d => handleZoom d c) [zoom_in; zoom_in; zoom_out; zoom_out; zoom_out]
               initial).
Proof.
  exact (proj1 (zoom_stays_within_bounds initial
                  [zoom_in; zoom_in; zoom_out; zoom_out; zoom_out]
                  (conj eq_refl eq_refl))).
Defined.

(** Thirty zoom-in commands from the initial state end exactly at 5, and
    thirty zoom-out commands exactly at 0.1. *)
Example zoom_saturates_from_initial :
  zoom (viewerState (fold_left (fun c d => handleZoom d c) (repeat zoom_in 30) initial)) = 5 /\
  zoom (viewerState (fold_left (fun c d => handleZoom d c) (repeat zoom_out 30) initial)) = 0.1.
Proof. split; vm_compute; reflexivity. Qed.

(** The bounds are an invariant of the whole component: no event takes the
    zoom out of [0.1, 5]. *)
Lemma next_zoom_in_range (props : Props) (ev : Event) (c : Component) :
  zoom_in_range c -> zoom_in_range (next props ev c).
Proof.
  intros H. unfold next.
  destruct ev; simpl; try exact H; try (apply handleZoom_in_range, H);
    try (split; reflexivity).
  - rewrite handleSave_state. exact H.
  - unfold handleMouseDown. destruct (1 <? zoom (viewerState c)); exact H.
  - unfold handleMouseMove.
    destruct (isDragging c && (1 <? zoom (viewerState c))); exact H.
  - unfold handleTouchStart.
    destruct ((1 <? zoom (viewerState c)) && (List.length (touches e) =? 1)%nat);
      [destruct (touches e)|]; exact H.
  - unfold handleTouchMove.
    destruct (isDragging c && (1 <? zoom (viewerState c))
              && (List.length (touches e) =? 1)%nat);
      [destruct (touches e)|]; exact H.
  - unfold handleKeyDown.
    destruct (targetIsBody e); simpl; [|exact H].
    destruct ((key e =? "+") || (key e =? "="))%string;
      [apply handleZoom_in_range, H|].
    destruct (key e =? "-")%string; [apply handleZoom_in_range, H|].
    destruct ((key e =? "r") || (key e =? "R"))%string; [exact H|].
    destruct (key e =? "0")%string; [split; reflexivity|].
    destruct (key e =? "Escape")%string; exact H.
Qed.

Lemma reachable_zoom_in_range (props : Props) (c : Component) :
  reachable props c -> zoom_in_range c.
Proof.
  induction 1 as [|ev c _ IH]; [split; reflexivity|].
  apply next_zoom_in_range, IH.
Qed.

(** *** Pan gestures *)

Lemma not_zoomed (c : Component) :
  (zoom (viewerState c) <=? 1) = true -> (1 <? zoom (viewerState c)) = false.
Proof. apply leb_not_ltb. Qed.

Lemma press_not_zoomed (props : Props) (ev : Event) (c : Component) :
  (1 <? zoom (viewerState c)) = false -> is_press ev = true -> next props ev c = c.
Proof.
  intros Hz Hev. destruct ev; try discriminate; unfold next; simpl.
  - unfold handleMouseDown. rewrite Hz. reflexivity.
  - unfold handleTouchStart. rewrite Hz. reflexivity.
Qed.

Lemma move_not_zoomed (props : Props) (ev : Event) (c : Component) :
  (1 <? zoom (viewerState c)) = false -> is_move ev = true -> next props ev c = c.
Proof.
  intros Hz Hev. destruct ev; try discriminate; unfold next; simpl.
  - unfold handleMouseMove. rewrite Hz, andb_false_r. reflexivity.
  - unfold handleTouchMove. rewrite Hz, andb_false_r. reflexivity.
Qed.

Lemma moves_not_zoomed (props : Props) (moves : list Event) (c : Component) :
  (1 <? zoom (viewerState c)) = false -> forallb is_move moves = true ->
  run props moves c = c.
Proof.
  intros Hz. induction moves as [|ev moves IH]; simpl; [reflexivity|].
  intros H. apply andb_prop in H as [Hev Hrest].
  unfold run in *. simpl. rewrite (move_not_zoomed props ev c Hz Hev). auto.
Qed.

(** C3. A gesture that starts while [zoom <= 1] does nothing: the press and
    every later move of the gesture leave the whole state as it was, so the
    tracker does not start dragging and [panOffset] keeps its value; a touch
    press starts a drag only with exactly one touch (and [zoom > 1]). *)
Theorem pan_gesture_ignored_unless_zoomed
    (props : Props) (c : Component) (press : Event) (moves : list Event) :
  (zoom (viewerState c) <=? 1) = true ->
  is_press press = true -> forallb is_move moves = true ->
  next props press c = c /\
  run props (press :: moves) c = c /\
  panOffset (run props (press :: moves) c) = panOffset c /\
  isDragging (run props (press :: moves) c) = isDragging c /\
  (forall (e : TouchEvent) (c' : Component),
      isDragging c' = false -> isDragging (handleTouchStart e c') = true ->
      List.length (touches e) = 1%nat /\ (1 <? zoom (viewerState c')) = true).
Proof.
  intros Hz Hp Hm. apply not_zoomed in Hz.
  assert (E : run props (press :: moves) c = c).
  { unfold run. simpl. rewrite (press_not_zoomed props press c Hz Hp).
    apply (moves_not_zoomed props moves c Hz Hm). }
  split; [exact (press_not_zoomed props press c Hz Hp)|].
  split; [exact E|]. rewrite E. split; [reflexivity|]. split; [reflexivity|].
  intros e c' Hidle Hdrag. unfold handleTouchStart in Hdrag.
  destruct (1 <? zoom (viewerState c')); simpl in Hdrag; [|congruence].
  destruct (Nat.eqb_spec (List.length (touches e)) 1); [auto|congruence].
Qed.

(** The specification's example: zoom = 1, press at (10,10), move to
    (50,50); [panOffset] remains (0,0) and no drag starts. *)
Lemma pan_gesture_ignored_unless_zoomed_witness :
  panOffset (run no_callbacks [MouseDown at_10_10; MouseMove at_50_50] initial) = origin /\
  isDragging (run no_callbacks [MouseDown at_10_10; MouseMove at_50_50] initial) = false.
Proof.
  destruct (pan_gesture_ignored_unless_zoomed no_callbacks initial
              (MouseDown at_10_10) [MouseMove at_50_50] eq_refl eq_refl eq_refl)
    as (_ & _ & Hpan & Hdrag & _).
  split; [exact Hpan|exact Hdrag].
Defined.

(** A multi-touch press never starts a drag. *)
Lemma multi_touch_press_ignored (e : TouchEvent) (c : Component) :
  List.length (touches e) <> 1%nat -> handleTouchStart e c = c.
Proof.
  intros H. unfold handleTouchStart.
  destruct (Nat.eqb_spec (List.length (touches e)) 1); [contradiction|].
  rewrite andb_false_r. reflexivity.
Qed.

Lemma mouse_moves_keep_drag (ms : list MouseEvent) : forall c,
  let c' := fold_left (fun c e => handleMouseMove e c) ms c in
  viewerState c' = viewerState c /\ isDragging c' = isDragging c /\
  dragStart c' = dragStart c.
Proof.
  induction ms as [|e ms IH]; intros c; simpl; [auto|].
  destruct (IH (handleMouseMove e c)) as (H1 & H2 & H3).
  rewrite H1, H2, H3. unfold handleMouseMove.
  destruct (isDragging c && (1 <? zoom (viewerState c))); auto.
Qed.

(** C7. With [zoom > 1] a press records [origin = pointer - panOffset] and
    starts the drag; then every move sets [panOffset = pointer - origin],
    whatever moves came before it. *)
Theorem drag_recomputes_pan_from_origin
    (c : Component) (press : MouseEvent) (earlier : list MouseEvent) (move : MouseEvent) :
  (1 <? zoom (viewerState c)) = true ->
  let pressed := handleMouseDown press c in
  isDragging pressed = true /\
  dragStart pressed = {| x := clientX press - x (panOffset c);
                         y := clientY press - y (panOffset c) |} /\
  panOffset (fold_left (fun c e => handleMouseMove e c) (earlier ++ [move]) pressed)
    = {| x := clientX move - x (dragStart pressed);
         y := clientY move - y (dragStart pressed) |}.
Proof.
  intros Hz pressed.
  assert (Ep : pressed = setDragStart {| x := clientX press - x (panOffset c);
                                         y := clientY press - y (panOffset c) |}
                           (setIsDragging true c)).
  { unfold pressed, handleMouseDown. rewrite Hz. reflexivity. }
  split; [rewrite Ep; reflexivity|]. split; [rewrite Ep; reflexivity|].
  rewrite fold_left_app. simpl.
  destruct (mouse_moves_keep_drag earlier pressed) as (H1 & H2 & H3).
  unfold handleMouseMove at 1. rewrite H1, H2, H3.
  replace (isDragging pressed) with true by (rewrite Ep; reflexivity).
  replace (zoom (viewerState pressed)) with (zoom (viewerState c))
    by (rewrite Ep; reflexivity).
  rewrite Hz. reflexivity.
Qed.

(** The specification's example: zoom = 2, press at (100,100) with
    [panOffset = (0,0)] records the origin (100,100); a move to (130,100)
    sets [panOffset = (30,0)]. *)
Lemma drag_recomputes_pan_from_origin_witness :
  dragStart (handleMouseDown at_100_100 zoomed_2) = {| x := 100; y := 100 |} /\
  panOffset (handleMouseMove at_130_100 (handleMouseDown at_100_100 zoomed_2))
    = {| x := 30; y := 0 |}.
Proof.
  destruct (drag_recomputes_pan_from_origin zoomed_2 at_100_100 [] at_130_100 eq_refl)
    as (_ & Hstart & Hpan).
  split; [exact Hstart|exact Hpan].
Defined.

(** *** Pan and the rendered transform *)

Lemma reachable_run (props : Props) (evs : list Event) : forall c,
  reachable props c -> reachable props (run props evs c).
Proof.
  induction evs as [|ev evs IH]; intros c H; [exact H|].
  apply (IH (next props ev c)). constructor. exact H.
Qed.

(** C4, as stated, fails: after zooming in, dragging by (30, 0), releasing
    and zooming out again, the state is reachable, its zoom is 1, and the
    rendered transform still translates by (30, 0). *)
Lemma pan_still_applied_at_zoom_1 :
  reachable no_callbacks (run no_callbacks pan_then_zoom_out initial) /\
  (zoom (viewerState (run no_callbacks pan_then_zoom_out initial)) <=? 1) = true /\
  panOffset (run no_callbacks pan_then_zoom_out initial) = {| x := 30; y := 0 |} /\
  imgTransform (run no_callbacks pan_then_zoom_out initial)
    = [scale 1; rotate_deg 0; translate_px 30 0] /\
  (30 =? 0) = false.
Proof.
  split; [apply reachable_run; constructor|].
  repeat split; vm_compute; reflexivity.
Qed.

Lemma handleKeyDown_pan (props : Props) (e : KeyboardEvent) (c : Component) :
  panOffset (fst (handleKeyDown props e c)) = panOffset c \/
  (is_reset (KeyDown e) = true /\ panOffset (fst (handleKeyDown props e c)) = origin).
Proof.
  unfold handleKeyDown, is_reset.
  destruct (targetIsBody e); simpl; [|auto].
  destruct ((key e =? "+") || (key e =? "="))%string; [auto|].
  destruct (key e =? "-")%string; [auto|].
  destruct ((key e =? "r") || (key e =? "R"))%string; [auto|].
  destruct (key e =? "0")%string; [auto|].
  destruct (key e =? "Escape")%string; auto.
Qed.

(** What an event can do to [panOffset]: nothing, reset it, or, for a move
    of a drag in progress with [zoom > 1], set it. *)
Lemma pan_after_event (props : Props) (ev : Event) (c : Component) :
  panOffset (next props ev c) = panOffset c \/
  (is_reset ev = true /\ panOffset (next props ev c) = origin) \/
  (is_move ev = true /\ isDragging c = true /\ (1 <? zoom (viewerState c)) = true).
Proof.
  unfold next. destruct ev; simpl; auto.
  - rewrite handleSave_state. auto.
  - unfold handleMouseDown. destruct (1 <? zoom (viewerState c)); auto.
  - unfold handleMouseMove.
    destruct (isDragging c); simpl; auto.
    destruct (1 <? zoom (viewerState c)); auto.
  - unfold handleTouchStart.
    destruct ((1 <? zoom (viewerState c)) && (List.length (touches e) =? 1)%nat); auto.
    destruct (touches e); auto.
  - unfold handleTouchMove.
    destruct (isDragging c); simpl; auto.
    destruct (1 <? zoom (viewerState c)); simpl; auto.
  - destruct (handleKeyDown_pan props e c) as [H|H]; auto.
Qed.

(** While the zoom stays at most 1, a pan of (0, 0) stays (0, 0). *)
Lemma pan_origin_while_unzoomed (props : Props) (evs : list Event) : forall c,
  panOffset c = origin -> stays_unzoomed props evs c ->
  panOffset (run props evs c) = origin.
Proof.
  induction evs as [|ev evs IH]; intros c Hp Hz; [exact Hp|].
  destruct Hz as [Hz Hrest]. apply not_zoomed in Hz.
  apply (IH (next props ev c)); [|exact Hrest].
  destruct (pan_after_event props ev c) as [H|[[_ H]|(_ & _ & H)]]; congruence.
Qed.

(** C4, amended. The rendered transform translates by [panOffset / zoom] at
    every zoom. What depends on the zoom is the gestures: an event changes
    [panOffset] only if it is a move of a drag in progress with [zoom > 1],
    or a reset (which sets it to (0, 0)). So a state reached from the initial
    one through states with [zoom <= 1] is rendered without pan translation,
    while a pan made at [zoom > 1] stays applied when the zoom comes back to
    1 or below. *)
Theorem pan_changed_only_by_zoomed_drag_or_reset
    (props : Props) (ev : Event) (c : Component) (evs : list Event) :
  imgTransform c
    = [ scale (zoom (viewerState c));
        rotate_deg (rotation (viewerState c));
        translate_px (x (panOffset c) / zoom (viewerState c))
                     (y (panOffset c) / zoom (viewerState c)) ] /\
  (panOffset (next props ev c) = panOffset c \/
   (is_reset ev = true /\ panOffset (next props ev c) = origin) \/
   (is_move ev = true /\ isDragging c = true /\ (1 <? zoom (viewerState c)) = true)) /\
  (stays_unzoomed props evs initial ->
   imgTransform (run props evs initial)
     = [ scale (zoom (viewerState (run props evs initial)));
         rotate_deg (rotation (viewerState (run props evs initial)));
         translate_px 0 0 ]).
Proof.
  split; [reflexivity|]. split; [apply pan_after_event|].
  intros Hz. unfold imgTransform, panTranslation.
  rewrite (pan_origin_while_unzoomed props evs initial eq_refl Hz). simpl.
  assert (R : zoom_in_range (run props evs initial)).
  { apply reachable_zoom_in_range with (props := props), reachable_run. constructor. }
  rewrite (zero_div_pos _ (proj1 R)). reflexivity.
Qed.

(** A press and a move at zoom 1, then a rotation: rendered without pan. *)
Lemma pan_changed_only_by_zoomed_drag_or_reset_witness :
  imgTransform (run no_callbacks press_move_rotate initial)
    = [scale 1; rotate_deg 90; translate_px 0 0].
Proof.
  exact (proj2 (proj2 (pan_changed_only_by_zoomed_drag_or_reset
                         no_callbacks ClickRotate initial press_move_rotate))
               (conj eq_refl (conj eq_refl (conj eq_refl I)))).
Defined.

(** Hence while [zoom <= 1] nothing but a reset changes [panOffset]. *)
Lemma pan_kept_unless_zoomed (props : Props) (ev : Event) (c : Component) :
  (zoom (viewerState c) <=? 1) = true -> is_reset ev = false ->
  panOffset (next props ev c) = panOffset c.
Proof.
  intros Hz Hr. apply not_zoomed in Hz.
  destruct (pan_after_event props ev c) as [H|[[H _]|(_ & _ & H)]]; congruence.
Qed.

(** *** Reset *)

(** C5. Whatever the state, reset yields zoom 1, rotation 0, contrast 100,
    brightness 100 and pan (0, 0); resetting twice is resetting once. *)
Theorem reset_is_constant_and_idempotent (c : Component) :
  transformState (handleReset c)
    = {| ts_zoom := 1; ts_rotation := 0; ts_contrast := 100; ts_brightness := 100;
         ts_panOffset := {| x := 0; y := 0 |} |} /\
  handleReset (handleReset c) = handleReset c /\
  transformState (handleReset (handleReset c)) = transformState (handleReset c).
Proof. repeat split. Qed.

(** *** Rotation *)

Lemma rotate_quarter_turn (c : Component) :
  In (rotation (viewerState c)) quarter_turns ->
  In (rotation (viewerState (handleRotate c))) quarter_turns.
Proof.
  unfold quarter_turns. simpl.
  intros [H|[H|[H|[H|[]]]]]; rewrite <- H; simpl; auto.
Qed.

Lemma rotations_quarter_turn (n : nat) (c : Component) :
  In (rotation (viewerState c)) quarter_turns ->
  In (rotation (viewerState (rotations n c))) quarter_turns.
Proof.
  intros H. induction n as [|n IH]; [exact H|].
  unfold rotations in *. simpl. apply rotate_quarter_turn, IH.
Qed.

(** One rotation takes every non-negative multiple of 90 into
    {0, 90, 180, 270}. *)
Lemma rotate_multiple_of_90 (c : Component) (k : Z) :
  (0 <= k)%Z -> rotation (viewerState c) = (90 * k)%Z ->
  In (rotation (viewerState (handleRotate c))) quarter_turns.
Proof.
  intros Hk E. simpl. rewrite E.
  assert (H : (Z.rem (90 * k + 90) 360 = 90 * ((k + 1) mod 4))%Z).
  { rewrite Z.rem_mod_nonneg by lia.
    replace (90 * k + 90)%Z with (90 * (k + 1))%Z by lia.
    change 360%Z with (90 * 4)%Z. rewrite Z.mul_mod_distr_l by lia. reflexivity. }
  rewrite H. pose proof (Z.mod_pos_bound (k + 1) 4 ltac:(lia)) as B.
  assert (C : ((k + 1) mod 4 = 0 \/ (k + 1) mod 4 = 1 \/
               (k + 1) mod 4 = 2 \/ (k + 1) mod 4 = 3)%Z) by lia.
  unfold quarter_turns.
  destruct C as [-> |[-> |[-> | ->]]]; simpl; auto.
Qed.

Lemma rotations_succ (n : nat) (c : Component) :
  rotations (S n) c = rotations n (handleRotate c).
Proof. unfold rotations. apply Nat.iter_succ_r. Qed.

(** C6. Rotating adds 90 modulo 360. From a rotation in {0, 90, 180, 270}
    four rotations give the rotation back and every number of rotations
    stays in {0, 90, 180, 270}; from any non-negative multiple of 90 the
    rotation is in {0, 90, 180, 270} after the first rotation and stays
    there. *)
Theorem four_rotations_are_identity (c : Component) (n : nat) (k : Z) :
  (0 <= k)%Z -> rotation (viewerState c) = (90 * k)%Z ->
  rotation (viewerState (handleRotate c)) = Z.rem (rotation (viewerState c) + 90) 360 /\
  In (rotation (viewerState (rotations (S n) c))) quarter_turns /\
  (In (rotation (viewerState c)) quarter_turns ->
   rotation (viewerState (rotations 4 c)) = rotation (viewerState c) /\
   In (rotation (viewerState (rotations n c))) quarter_turns).
Proof.
  intros Hk E. split; [reflexivity|]. split.
  { rewrite rotations_succ.
    apply rotations_quarter_turn, (rotate_multiple_of_90 c k Hk E). }
  intros H. split; [|apply rotations_quarter_turn, H].
  unfold quarter_turns in H. simpl in H.
  destruct H as [H|[H|[H|[H|[]]]]]; simpl; rewrite <- H; reflexivity.
Qed.

(** From the initial state: 0, 90, 180, 270, 0. *)
Lemma four_rotations_are_identity_witness :
  map (fun n => rotation (viewerState (rotations n initial))) [0; 1; 2; 3; 4]%nat
    = [0; 90; 180; 270; 0]%Z /\
  rotation (viewerState (rotations 4 initial)) = rotation (viewerState initial).
Proof.
  split; [reflexivity|].
  exact (proj1 (proj2 (proj2 (four_rotations_are_identity initial 4 0
                                (Z.le_refl 0) eq_refl))
                      (or_introl eq_refl))).
Defined.

(** The remainder keeps the sign of the dividend, as JavaScript's [%] does;
    a negative rotation, which no command produces, would stay negative. *)
Example rotate_negative_stays_negative :
  Z.rem (-180 + 90) 360 = (-90)%Z.
Proof. reflexivity. Qed.

(** *** Export *)

Lemma handleSave_viewerState (props : Props) (imageRef : option Image) (context2d : bool)
    (c c' : Component) :
  viewerState c = viewerState c' ->
  snd (handleSave props imageRef context2d c) = snd (handleSave props imageRef context2d c').
Proof.
  intros E. unfold handleSave.
  destruct imageRef; [destruct (negb context2d)|]; simpl; rewrite ?E; reflexivity.
Qed.

(** C8, as stated, fails: after one zoom-in (zoom = 1.2) a 101 x 51 image
    is exported on a surface of 121 x 61 pixels, while [naturalWidth * zoom]
    is 121.19999999999999 and [naturalHeight * zoom] is
    61.199999999999996: the surface is not the scaled size. *)
Lemma export_surface_drops_the_fraction :
  reachable no_callbacks zoomed_in_once /\
  zoom (viewerState zoomed_in_once) = 1.2 /\
  exists canvas,
    savedCanvas (snd (handleSave with_callbacks (Some image_101x51) true zoomed_in_once))
      = Some canvas /\
    surface_width canvas = 121%Z /\ surface_height canvas = 61%Z /\
    naturalWidth image_101x51 * zoom (viewerState zoomed_in_once) = 121.19999999999999 /\
    naturalHeight image_101x51 * zoom (viewerState zoomed_in_once) = 61.199999999999996 /\
    (Z2number (surface_width canvas)
       =? naturalWidth image_101x51 * zoom (viewerState zoomed_in_once)) = false /\
    (Z2number (surface_height canvas)
       =? naturalHeight image_101x51 * zoom (viewerState zoomed_in_once)) = false.
Proof.
  split; [unfold zoomed_in_once; constructor; constructor|].
  split; [reflexivity|].
  eexists. split; [reflexivity|]. repeat split.
Qed.

Lemma reflected_dimension_whole_part (default : Z) (x : number) :
  (0 <=? x) = true -> (x <? 2147483648) = true ->
  (0 <= reflected_dimension default x <= 2147483647)%Z /\
  (Z2number (reflected_dimension default x) <=? x) = true /\
  (x <? Z2number (reflected_dimension default x + 1)) = true.
Proof.
  intros Hlo Hhi. destruct (ToUint32_whole_part x Hlo Hhi) as (Hn & H1 & H2).
  unfold reflected_dimension.
  destruct (Z.leb_spec (ToUint32 x) 2147483647); [|lia].
  split; [exact Hn|]. split; [exact H1|exact H2].
Qed.

Lemma reflected_dimension_Z2number (default n : Z) :
  (0 <= n <= 2147483647)%Z -> reflected_dimension default (Z2number n) = n.
Proof.
  intros Hn. unfold reflected_dimension.
  rewrite ToUint32_Z2number by (change (2 ^ 32)%Z with 4294967296%Z; lia).
  destruct (Z.leb_spec n 2147483647); [reflexivity|lia].
Qed.

(** C8 (amended). When the image and a 2D context are available and
    [onSave] is supplied, the canvas handed to [onSave] has been assigned
    the width [naturalWidth * zoom] and the height [naturalHeight * zoom],
    and its surface is the whole part of each: for a scaled size from 0 up
    to (not including) 2^31, the surface width is the whole number [w] with
    [w <= naturalWidth * zoom < w + 1], and likewise the height; when the
    scaled size is itself a whole number the surface is exactly that size.
    The rotation does not enter: changing it leaves the assigned values and
    the surface as they are. *)
Theorem export_surface_is_whole_part_of_scaled_size
    (props : Props) (img : Image) (c : Component) (r : Z) :
  onSave props = true ->
  let scaledWidth := naturalWidth img * zoom (viewerState c) in
  let scaledHeight := naturalHeight img * zoom (viewerState c) in
  exists canvas rotated,
    savedCanvas (snd (handleSave props (Some img) true c)) = Some canvas /\
    width canvas = scaledWidth /\ height canvas = scaledHeight /\
    ((0 <=? scaledWidth) = true -> (scaledWidth <? 2147483648) = true ->
     (0 <= surface_width canvas <= 2147483647)%Z /\
     (Z2number (surface_width canvas) <=? scaledWidth) = true /\
     (scaledWidth <? Z2number (surface_width canvas + 1)) = true) /\
    ((0 <=? scaledHeight) = true -> (scaledHeight <? 2147483648) = true ->
     (0 <= surface_height canvas <= 2147483647)%Z /\
     (Z2number (surface_height canvas) <=? scaledHeight) = true /\
     (scaledHeight <? Z2number (surface_height canvas + 1)) = true) /\
    (forall w : Z, (0 <= w <= 2147483647)%Z -> scaledWidth = Z2number w ->
                   surface_width canvas = w) /\
    (forall h : Z, (0 <= h <= 2147483647)%Z -> scaledHeight = Z2number h ->
                   surface_height canvas = h) /\
    savedCanvas (snd (handleSave props (Some img) true
                        (setViewerState (fun prev =>
                           {| zoom := zoom prev; rotation := r;
                              contrast := contrast prev;
                              brightness := brightness prev |}) c)))
      = Some rotated /\
    width rotated = width canvas /\ height rotated = height canvas /\
    surface_width rotated = surface_width canvas /\
    surface_height rotated = surface_height canvas.
Proof.
  intros Hsave scaledWidth scaledHeight. unfold handleSave. simpl. rewrite Hsave. simpl.
  eexists _, _. split; [reflexivity|]. simpl.
  split; [reflexivity|]. split; [reflexivity|].
  unfold surface_width, surface_height. simpl.
  split; [apply reflected_dimension_whole_part|].
  split; [apply reflected_dimension_whole_part|].
  split; [intros w Hw E; fold scaledWidth; rewrite E;
          apply reflected_dimension_Z2number, Hw|].
  split; [intros h Hh E; fold scaledHeight; rewrite E;
          apply reflected_dimension_Z2number, Hh|].
  repeat split.
Qed.

(** The specification's example: zoom = 2, rotation = 90, a 100 x 50 image;
    the scaled size is whole and the surface is 200 x 100. *)
Lemma export_surface_is_whole_part_of_scaled_size_witness :
  exists canvas,
    savedCanvas (snd (handleSave with_callbacks (Some image_100x50) true zoomed_2_rotated_90))
      = Some canvas /\
    width canvas = 200 /\ height canvas = 100 /\
    surface_width canvas = 200%Z /\ surface_height canvas = 100%Z.
Proof.
  destruct (export_surface_is_whole_part_of_scaled_size
              with_callbacks image_100x50 zoomed_2_rotated_90 0 eq_refl)
    as (canvas & _ & Hc & Hw & Hh & _ & _ & Hsw & Hsh & _).
  exists canvas. split; [exact Hc|]. split; [exact Hw|]. split; [exact Hh|].
  split; [apply Hsw; [lia|reflexivity]|apply Hsh; [lia|reflexivity]].
Defined.

(** C9. The export reads the viewer state only (zoom, rotation, contrast,
    brightness): two states with the same viewer state export the same
    thing, whatever their [panOffset]; the export changes no state, and
    only draws from the image it was given. *)
Theorem export_ignores_pan_and_changes_nothing
    (props : Props) (imageRef : option Image) (context2d : bool)
    (c c' : Component) (p : Point) :
  viewerState c = viewerState c' ->
  snd (handleSave props imageRef context2d c)
    = snd (handleSave props imageRef context2d c') /\
  snd (handleSave props imageRef context2d (setPanOffset p c))
    = snd (handleSave props imageRef context2d c) /\
  fst (handleSave props imageRef context2d c) = c /\
  transformState (fst (handleSave props imageRef context2d c)) = transformState c /\
  (forall canvas img,
      savedCanvas (snd (handleSave props imageRef context2d c)) = Some canvas ->
      In img (drawnImages canvas) -> imageRef = Some img).
Proof.
  intros E.
  split; [apply handleSave_viewerState, E|].
  split; [apply handleSave_viewerState; reflexivity|].
  split; [apply handleSave_state|].
  split; [rewrite handleSave_state; reflexivity|].
  intros canvas img. unfold handleSave.
  destruct imageRef as [img0|]; [|discriminate].
  destruct (negb context2d); [discriminate|].
  destruct (onSave props); [|discriminate].
  simpl. intros H. injection H as <-. unfold drawnImages. simpl.
  destruct (negb (rotation (viewerState c) =? 0)%Z); simpl;
    intros [->|[]]; reflexivity.
Qed.

(** A state panned by (30, 0) and the same state without the pan export the
    same image, and the export leaves the pan where it was. *)
Lemma export_ignores_pan_and_changes_nothing_witness :
  snd (handleSave with_callbacks (Some image_100x50) true zoomed_2_rotated_90)
    = snd (handleSave with_callbacks (Some image_100x50) true
             (setPanOffset origin zoomed_2_rotated_90)) /\
  panOffset (fst (handleSave with_callbacks (Some image_100x50) true zoomed_2_rotated_90))
    = {| x := 30; y := 0 |}.
Proof.
  destruct (export_ignores_pan_and_changes_nothing
              with_callbacks (Some image_100x50) true
              zoomed_2_rotated_90 (setPanOffset origin zoomed_2_rotated_90) origin eq_refl)
    as (Hsame & _ & Hstate & _).
  split; [exact Hsame|]. rewrite Hstate. reflexivity.
Defined.

(** What the example exports: the filter, then the rotated draw. *)
Example export_of_rotated_example :
  snd (handleSave with_callbacks (Some image_100x50) true zoomed_2_rotated_90)
  = [ CallOnSave (image_png
        {| width := 200; height := 100;
           filter := Some {| contrast_pct := 100; brightness_pct := 100 |};
           calls := [ ctx_save;
                      ctx_translate 100 50;
                      ctx_rotate 0x1.921fb54442d18p+0;
                      ctx_drawImage image_100x50 (-100) (-50) 200 100;
                      ctx_restore ] |}) ].
Proof. vm_compute. reflexivity. Qed.

(** What is exported of the 101 x 51 image at zoom 1.2 once rotated: the
    translation goes to the centre of the 121 x 61 surface, read back from
    the canvas, while the image is drawn at its scaled size. *)
Example export_of_fractional_example :
  snd (handleSave with_callbacks (Some image_101x51) true (handleRotate zoomed_in_once))
  = [ CallOnSave (image_png
        {| width := 121.19999999999999; height := 61.199999999999996;
           filter := Some {| contrast_pct := 100; brightness_pct := 100 |};
           calls := [ ctx_save;
                      ctx_translate 60.5 30.5;
                      ctx_rotate 0x1.921fb54442d18p+0;
                      ctx_drawImage image_101x51 (-60.599999999999994)
                                    (-30.599999999999998)
                                    121.19999999999999 61.199999999999996;
                      ctx_restore ] |}) ].
Proof. vm_compute. reflexivity. Qed.

(** Export does nothing without a mounted image or without a 2D context. *)
Lemma export_unavailable (props : Props) (imageRef : option Image) (c : Component) :
  handleSave props None true c = (c, []) /\
  handleSave props imageRef false c = (c, []).
Proof. split; [reflexivity|]. unfold handleSave. destruct imageRef; reflexivity. Qed.

End ViewerFacts.

(** ** Properties of the upload component *)

Module UploadFacts.
Import JS UploadScan Scenario FloatFacts.
Local Open Scope string_scope.

Lemma includes_acceptedMimeTypes (t : string) :
  includes acceptedMimeTypes t = true <->
  (t = "image/jpeg" \/ t = "image/jpg" \/ t = "image/png" \/
   t = "application/dicom" \/ t = "application/octet-stream").
Proof.
  cbv [includes acceptedMimeTypes existsb].
  rewrite !orb_true_iff, !String.eqb_eq. intuition congruence.
Qed.

Lemma validateFile_spec (f : File) : validateFile f = true <-> spec_accepts f.
Proof.
  unfold validateFile, spec_accepts. cbv zeta.
  rewrite andb_true_iff, orb_true_iff, includes_acceptedMimeTypes, Z.leb_le.
  change (50 * 1024 * 1024)%Z with 52428800%Z.
  cbv [acceptedTypes existsb].
  rewrite !orb_true_iff. intuition congruence.
Qed.

Section Browser.

Variable formatFileSize : Z -> string.
Variable readAsDataURL : File -> string.

(** C2. A file is accepted exactly when its lower-cased name ends with
    .dcm, .jpg, .jpeg or .png, or its MIME type is one of the five accepted
    ones, and its size is at most 52,428,800 bytes; a rejected file raises
    the alert and leaves the whole state, the selected file included, as it
    was. *)
Theorem file_accepted_iff_type_and_size (f : File) (c : Component) :
  (validateFile f = true <-> spec_accepts f) /\
  (validateFile f = false ->
   handleFileSelect formatFileSize readAsDataURL f c
     = (c, [Alert "Please select a valid medical image file (.dcm, .jpg, .jpeg, .png) under 50MB."])) /\
  (validateFile f = false ->
   fileInfo (fst (handleFileSelect formatFileSize readAsDataURL f c)) = fileInfo c) /\
  (validateFile f = true ->
   exists info,
     fileInfo (fst (handleFileSelect formatFileSize readAsDataURL f c)) = Some info /\
     file info = f).
Proof.
  split; [apply validateFile_spec|].
  unfold handleFileSelect.
  repeat split; intros H; rewrite H; simpl; eauto.
Qed.

End Browser.

(** The specification's examples: [scan.DCM] (1 MiB) and [scan.png] of
    exactly 52,428,800 bytes are accepted; [scan.txt] (1 KiB) and [scan.png]
    of 60 MiB are rejected, with the alert and the selection unchanged. *)
Lemma file_accepted_iff_type_and_size_witness :
  validateFile scan_DCM = true /\
  validateFile scan_png_50MiB = true /\
  spec_accepts scan_png_50MiB /\
  validateFile scan_txt = false /\
  validateFile scan_png_60MiB = false /\
  fileInfo (fst (handleFileSelect (fun _ => "") (fun _ => "") scan_txt ready_to_analyze))
    = fileInfo ready_to_analyze /\
  fileInfo (fst (handleFileSelect (fun _ => "") (fun _ => "") scan_png_60MiB ready_to_analyze))
    = fileInfo ready_to_analyze.
Proof.
  split; [reflexivity|]. split; [reflexivity|].
  split.
  { exact (proj1 (proj1 (file_accepted_iff_type_and_size
                           (fun _ => "") (fun _ => "") scan_png_50MiB ready_to_analyze))
                 eq_refl). }
  split; [reflexivity|]. split; [reflexivity|].
  split.
  - exact (proj1 (proj2 (proj2 (file_accepted_iff_type_and_size
                           (fun _ => "") (fun _ => "") scan_txt ready_to_analyze)))
                 eq_refl).
  - exact (proj1 (proj2 (proj2 (file_accepted_iff_type_and_size
                           (fun _ => "") (fun _ => "") scan_png_60MiB ready_to_analyze)))
                 eq_refl).
Defined.

(** The type test is a disjunction: a name without an accepted extension
    passes when the MIME type is an accepted one. *)
Example octet_stream_accepted_by_mime_type :
  validateFile notes_txt_octet_stream = true /\
  existsb (fun type => endsWith (toLowerCase (name notes_txt_octet_stream)) type)
          acceptedTypes = false.
Proof. split; reflexivity. Qed.

(** C10. With [Math.random()] in [0, 1), the report built for a selected
    file has risk level Low and an integer confidence between 70 and 99; its
    scan type is 'DICOM CT Scan' exactly when the lower-cased file name ends
    with '.dcm', and 'Medical Image' otherwise; with a file selected and
    consent given, this is the report that is stored and navigated to. *)
Theorem sample_report_is_low_risk_70_to_99
    (info : FileInfo) (random : number) (now : string)
    (c : Component) (onAnalyze : bool) :
  (0 <=? random)%float = true -> (random <? 1)%float = true ->
  let report := sampleReportData info random now in
  riskLevel report = Low /\
  (exists n : Z, (70 <= n <= 99)%Z /\ confidence report = Z2number n) /\
  (scanType report = "DICOM CT Scan" <->
   endsWith (toLowerCase (name (file info))) ".dcm" = true) /\
  (scanType report = "Medical Image" <->
   endsWith (toLowerCase (name (file info))) ".dcm" = false) /\
  (fileInfo c = Some info -> hasConsent c = true ->
   generatedReport random now c = Some report /\
   snd (handleAnalyze onAnalyze None random now c)
     = Delay 3000 :: LocalStorage_setItem "paninsight-report" report ::
       Navigate "/report" report ::
       (if onAnalyze then [CallOnAnalyze (file info)] else [])).
Proof.
  intros Hlo Hhi report.
  split; [reflexivity|]. split.
  { destruct (floor_random_30 random Hlo Hhi) as (k & Hk & E).
    exists (70 + k)%Z. split; [lia|exact E]. }
  unfold report. simpl scanType.
  split; [|split].
  - destruct (endsWith (toLowerCase (name (file info))) ".dcm");
      split; intros H; try reflexivity; discriminate.
  - destruct (endsWith (toLowerCase (name (file info))) ".dcm");
      split; intros H; try reflexivity; discriminate.
  - intros Hf Hc. unfold generatedReport, handleAnalyze. rewrite Hf, Hc. simpl.
    split; reflexivity.
Qed.

(** [Math.random() = 0.5] on the selected [scan.png]: confidence 85, risk
    Low, scan type 'Medical Image'. *)
Lemma sample_report_is_low_risk_70_to_99_witness :
  riskLevel (sampleReportData
               {| file := scan_png_50MiB; preview := None; size_text := "50 MB" |}
               0.5%float "November 2, 2026") = Low /\
  exists n : Z, (70 <= n <= 99)%Z /\
    confidence (sampleReportData
                  {| file := scan_png_50MiB; preview := None; size_text := "50 MB" |}
                  0.5%float "November 2, 2026") = Z2number n.
Proof.
  destruct (sample_report_is_low_risk_70_to_99
              {| file := scan_png_50MiB; preview := None; size_text := "50 MB" |}
              0.5%float "November 2, 2026" ready_to_analyze false eq_refl eq_refl)
    as (Hrisk & Hconf & _).
  split; [exact Hrisk|exact Hconf].
Defined.

(** The ends of the range are reached: 70 at 0 and 99 just below 1. *)
Example confidence_at_the_ends :
  (Math_floor (0 * 30) + 70 = 70)%float /\
  (Math_floor (0x1.fffffffffffffp-1 * 30) + 70 = 99)%float /\
  (Math_floor (0.5 * 30) + 70 = 85)%float.
Proof. repeat split. Qed.

End UploadFacts.

(** ** More binary64 facts: multiplying and dividing by 1.2 moves the zoom *)

Module FloatMore.
Import JS Rounding FloatFacts.
Local Open Scope Z_scope.

Lemma SFltb_finish_lower (mc : positive) (ec m2 e' : Z) :
  0 < m2 <= 2 ^ 53 -> e' + 1 <= 971 ->
  ec < e' \/ (ec = e' /\ Zpos mc < m2) ->
  SFltb (S754_finite false mc ec) (finish false m2 e') = true.
Proof.
  intros Hm He H. unfold finish.
  destruct (Z.eqb_spec m2 0); [lia|].
  destruct (Z.ltb_spec m2 (2 ^ 53)).
  - destruct (Z.leb_spec e' 971); [|lia].
    apply SFltb_finite_pos. rewrite Z2Pos.id by lia. exact H.
  - destruct (Z.leb_spec (e' + 1) 971); [|lia].
    apply SFltb_finite_pos. lia.
Qed.

Lemma SFltb_finish_upper (mc : positive) (ec m2 e' : Z) :
  0 <= m2 <= 2 ^ 53 -> e' + 1 <= 971 ->
  (m2 < 2 ^ 53 -> e' < ec \/ (e' = ec /\ m2 < Zpos mc)) ->
  (m2 = 2 ^ 53 -> e' + 1 < ec \/ (e' + 1 = ec /\ 2 ^ 52 < Zpos mc)) ->
  SFltb (finish false m2 e') (S754_finite false mc ec) = true.
Proof.
  intros Hm He Hlt Heq. unfold finish.
  destruct (Z.eqb_spec m2 0); [reflexivity|].
  destruct (Z.ltb_spec m2 (2 ^ 53)).
  - destruct (Z.leb_spec e' 971); [|lia].
    apply SFltb_finite_pos. rewrite Z2Pos.id by lia. auto.
  - destruct (Z.leb_spec (e' + 1) 971); [|lia].
    apply SFltb_finite_pos. change (Zpos (Z.to_pos (2 ^ 52))) with (2 ^ 52).
    apply Heq. lia.
Qed.

(** In [0.1, 5] the product with 1.2 is strictly above the number. *)
Lemma SFmul_1_2_above (z : spec_float) :
  valid_binary z = true -> SFleb c0_1 z = true -> SFleb z c5 = true ->
  SFltb z (SF64mul z c1_2) = true.
Proof.
  intros Hv Hlo Hhi.
  destruct (zoom_range_shape z Hv Hlo Hhi) as (m & e & -> & Hb & Hd & Hl & Hu).
  unfold SF64mul, SFmul, c1_2. cbv [xorb].
  rewrite Pos2Z.inj_mul.
  set (P := Zpos m * 5404319552844595).
  assert (HP : 2 ^ 104 <= P < 2 ^ 106) by (unfold P; lia).
  destruct (binary_round_aux_cases false P (e + -52) loc_Exact ltac:(lia))
    as (m2 & Hm2 & ->).
  destruct (Z_lt_le_dec P (2 ^ 105)) as [Hlt|Hge].
  - rewrite (Zdigits2_unique P 105) in * by lia.
    assert (E : Z.max (e + -52) (fexp prec emax (105 + (e + -52))) = e).
    { unfold fexp, SpecFloat.emin, prec, emax. lia. }
    rewrite E in *. replace (e - (e + -52)) with 52 in Hm2 by lia.
    assert (Hq : Zpos m + 1 <= P / 2 ^ 52 < 2 ^ 53).
    { split; [apply Z.div_le_lower_bound; unfold P; lia|
              apply Z.div_lt_upper_bound; lia]. }
    apply SFltb_finish_lower; lia.
  - rewrite (Zdigits2_unique P 106) in * by lia.
    assert (E : Z.max (e + -52) (fexp prec emax (106 + (e + -52))) = e + 1).
    { unfold fexp, SpecFloat.emin, prec, emax. lia. }
    rewrite E in *. replace (e + 1 - (e + -52)) with 53 in Hm2 by lia.
    assert (Hq : 2 ^ 52 <= P / 2 ^ 53 < 2 ^ 53).
    { split; [apply Z.div_le_lower_bound; lia|
              apply Z.div_lt_upper_bound; lia]. }
    apply SFltb_finish_lower; lia.
Qed.

(** In [0.1, 5] the quotient by 1.2 is strictly below the number. *)
Lemma SFdiv_1_2_below (z : spec_float) :
  valid_binary z = true -> SFleb c0_1 z = true -> SFleb z c5 = true ->
  SFltb (SF64div z c1_2) z = true.
Proof.
  intros Hv Hlo Hhi.
  destruct (zoom_range_shape z Hv Hlo Hhi) as (m & e & -> & Hb & Hd & Hl & Hu).
  unfold SF64div, SFdiv, c1_2. cbv [xorb].
  rewrite SFdiv_core_1_2 by (assumption || lia).
  set (q := Zpos m * 2 ^ 53 / 5404319552844595).
  assert (Hq : 2 ^ 52 <= q < 2 ^ 54).
  { unfold q. split; [apply Z.div_le_lower_bound; lia|
                      apply Z.div_lt_upper_bound; lia]. }
  assert (HqM : q * 5404319552844595 <= Zpos m * 2 ^ 53).
  { unfold q. rewrite Z.mul_comm. apply Z.mul_div_le. lia. }
  destruct (binary_round_aux_cases false q (e - 1)
              (new_location 5404319552844595 ((Zpos m * 2 ^ 53) mod 5404319552844595))
              ltac:(lia)) as (m2 & Hm2 & ->).
  clearbody q.
  destruct (Z_lt_le_dec q (2 ^ 53)) as [Hlt|Hge].
  - rewrite (Zdigits2_unique q 53) in * by lia.
    assert (E : Z.max (e - 1) (fexp prec emax (53 + (e - 1))) = e - 1).
    { unfold fexp, SpecFloat.emin, prec, emax. lia. }
    rewrite E in *. rewrite Z.sub_diag, Z.div_1_r in Hm2.
    apply SFltb_finish_upper; try lia.
  - rewrite (Zdigits2_unique q 54) in * by lia.
    assert (E : Z.max (e - 1) (fexp prec emax (54 + (e - 1))) = e).
    { unfold fexp, SpecFloat.emin, prec, emax. lia. }
    rewrite E in *. replace (e - (e - 1)) with 1 in Hm2 by lia.
    change (2 ^ 1) with 2 in Hm2.
    assert (Hh : 0 <= q / 2 < 2 ^ 53 /\ 2 * (q / 2) <= q).
    { split; [split; [apply Z.div_pos; lia|apply Z.div_lt_upper_bound; lia]|].
      apply Z.mul_div_le. lia. }
    set (h := q / 2) in *. clearbody h.
    apply SFltb_finish_upper; try lia.
Qed.

Lemma mul_1_2_above (z : float) :
  (0.1 <=? z)%float = true -> (z <=? 5)%float = true ->
  (z <? z * 1.2)%float = true.
Proof.
  rewrite !leb_spec, ltb_spec, mul_spec. intros H1 H2.
  apply SFmul_1_2_above; solve [apply Prim2SF_valid | assumption].
Qed.

Lemma div_1_2_below (z : float) :
  (0.1 <=? z)%float = true -> (z <=? 5)%float = true ->
  (z / 1.2 <? z)%float = true.
Proof.
  rewrite !leb_spec, ltb_spec, div_spec. intros H1 H2.
  apply SFdiv_1_2_below; solve [apply Prim2SF_valid | assumption].
Qed.

End FloatMore.

(** ** Further properties of the image viewer *)

Module ViewerMore.
Import JS ImageViewer ViewerTerms Scenario FloatFacts FloatMore ViewerFacts.
Local Open Scope float_scope.

(** *** Invariants of every reachable state *)

(** X1. Whatever the events (buttons, keys, gestures, sliders, reset, save),
    every state reached from the initial one has its zoom in [0.1, 5]. *)
Theorem zoom_bounded_in_every_reachable_state (props : Props) (c : Component) :
  reachable props c ->
  (0.1 <=? zoom (viewerState c)) = true /\ (zoom (viewerState c) <=? 5) = true.
Proof. intros H. exact (reachable_zoom_in_range props c H). Qed.

Lemma zoom_bounded_in_every_reachable_state_witness :
  (0.1 <=? zoom (viewerState (run no_callbacks pan_then_zoom_out initial))) = true /\
  (zoom (viewerState (run no_callbacks pan_then_zoom_out initial)) <=? 5) = true.
Proof.
  exact (zoom_bounded_in_every_reachable_state no_callbacks _
           (reachable_run no_callbacks pan_then_zoom_out initial
              (reachable_initial no_callbacks))).
Defined.

Lemma next_rotation (props : Props) (ev : Event) (c : Component) :
  In (rotation (viewerState c)) quarter_turns ->
  In (rotation (viewerState (next props ev c))) quarter_turns.
Proof.
  intros H. unfold next.
  destruct ev; simpl; try exact H; try (apply rotate_quarter_turn, H);
    try (left; reflexivity).
  - rewrite handleSave_state. exact H.
  - unfold handleMouseDown. destruct (1 <? zoom (viewerState c)); exact H.
  - unfold handleMouseMove.
    destruct (isDragging c && (1 <? zoom (viewerState c))); exact H.
  - unfold handleTouchStart.
    destruct ((1 <? zoom (viewerState c)) && (List.length (touches e) =? 1)%nat);
      [destruct (touches e)|]; exact H.
  - unfold handleTouchMove.
    destruct (isDragging c && (1 <? zoom (viewerState c))
              && (List.length (touches e) =? 1)%nat);
      [destruct (touches e)|]; exact H.
  - unfold handleKeyDown.
    destruct (targetIsBody e); simpl; [|exact H].
    destruct ((key e =? "+") || (key e =? "="))%string; [exact H|].
    destruct (key e =? "-")%string; [exact H|].
    destruct ((key e =? "r") || (key e =? "R"))%string;
      [apply rotate_quarter_turn, H|].
    destruct (key e =? "0")%string; [left; reflexivity|].
    destruct (key e =? "Escape")%string; exact H.
Qed.

(** X2. Whatever the events, every state reached from the initial one has
    its rotation in {0, 90, 180, 270}. *)
Theorem rotation_is_a_quarter_turn_in_every_reachable_state
    (props : Props) (c : Component) :
  reachable props c -> In (rotation (viewerState c)) quarter_turns.
Proof.
  induction 1 as [|ev c _ IH]; [left; reflexivity|].
  apply next_rotation, IH.
Qed.

Lemma rotation_is_a_quarter_turn_in_every_reachable_state_witness :
  In (rotation (viewerState
        (run no_callbacks [ClickRotate; ClickRotate; ClickRotate; ClickRotate; ClickRotate]
             initial)))
     quarter_turns.
Proof.
  exact (rotation_is_a_quarter_turn_in_every_reachable_state no_callbacks _
           (reachable_run no_callbacks
              [ClickRotate; ClickRotate; ClickRotate; ClickRotate; ClickRotate] initial
              (reachable_initial no_callbacks))).
Defined.

(** *** Zoom commands always move the zoom, until it saturates *)

(** X3. With the zoom in [0.1, 5]: below 5 a zoom-in gives a strictly larger
    zoom, and above 0.1 a zoom-out gives a strictly smaller one; so a zoom
    command leaves the zoom where it is only at the bound it pushes
    against. *)
Theorem zoom_command_moves_the_zoom (c : Component) :
  zoom_in_range c ->
  let z := zoom (viewerState c) in
  ((z <? 5) = true -> (z <? zoom (viewerState (handleZoom zoom_in c))) = true) /\
  ((0.1 <? z) = true -> (zoom (viewerState (handleZoom zoom_out c)) <? z) = true).
Proof.
  intros [Hlo Hhi] z. fold z in Hlo, Hhi. split; intros H; simpl; fold z.
  - pose proof (mul_1_2_above z Hlo Hhi) as Ha.
    destruct (ltb_not_nan _ _ Ha) as [_ Hnan].
    destruct (Math_min_spec (z * 1.2) 5 Hnan eq_refl) as ([E|E] & _); rewrite E; assumption.
  - pose proof (div_1_2_below z Hlo Hhi) as Ha.
    destruct (ltb_not_nan _ _ Ha) as [Hnan _].
    destruct (Math_max_spec (z / 1.2) 0.1 Hnan eq_refl) as ([E|E] & _); rewrite E; assumption.
Qed.

Lemma zoom_command_moves_the_zoom_witness :
  (1 <? zoom (viewerState (handleZoom zoom_in initial))) = true /\
  (zoom (viewerState (handleZoom zoom_out initial)) <? 1) = true.
Proof.
  destruct (zoom_command_moves_the_zoom initial (conj eq_refl eq_refl)) as [Hin Hout].
  split; [exact (Hin eq_refl)|exact (Hout eq_refl)].
Defined.

(** *** Gestures *)

Lemma move_not_dragging (props : Props) (ev : Event) (c : Component) :
  isDragging c = false -> is_move ev = true -> next props ev c = c.
Proof.
  intros Hd Hev. destruct ev; try discriminate; unfold next; simpl.
  - unfold handleMouseMove. rewrite Hd. reflexivity.
  - unfold handleTouchMove. rewrite Hd. reflexivity.
Qed.

Lemma moves_not_dragging (props : Props) (moves : list Event) (c : Component) :
  isDragging c = false -> forallb is_move moves = true -> run props moves c = c.
Proof.
  intros Hd. induction moves as [|ev moves IH]; simpl; [reflexivity|].
  intros H. apply andb_prop in H as [Hev Hrest].
  unfold run in *. simpl. rewrite (move_not_dragging props ev c Hd Hev). auto.
Qed.

(** X5. At any zoom, a release (mouse up, mouse leaving the area, touch end)
    ends the drag and changes nothing else, and the moves that follow it
    change nothing at all: without a press, moving never pans. *)
Theorem moves_after_release_do_nothing
    (props : Props) (c : Component) (release : Event) (moves : list Event) :
  is_release release = true -> forallb is_move moves = true ->
  next props release c = setIsDragging false c /\
  run props (release :: moves) c = setIsDragging false c /\
  panOffset (run props (release :: moves) c) = panOffset c /\
  isDragging (run props (release :: moves) c) = false.
Proof.
  intros Hr Hm.
  assert (E : next props release c = setIsDragging false c).
  { destruct release; try discriminate; reflexivity. }
  assert (R : run props (release :: moves) c = setIsDragging false c).
  { unfold run. simpl. rewrite E.
    apply (moves_not_dragging props moves (setIsDragging false c) eq_refl Hm). }
  rewrite R. repeat split; assumption.
Qed.

(** Zoomed to 2: press at (100,100), move to (130,100), release, then move
    to (50,50): the pan stays (30,0). *)
Lemma moves_after_release_do_nothing_witness :
  panOffset (run no_callbacks [MouseUp; MouseMove at_50_50]
               (run no_callbacks [MouseDown at_100_100; MouseMove at_130_100] zoomed_2))
    = {| x := 30; y := 0 |}.
Proof.
  exact (proj1 (proj2 (proj2 (moves_after_release_do_nothing no_callbacks
           (run no_callbacks [MouseDown at_100_100; MouseMove at_130_100] zoomed_2)
           MouseUp [MouseMove at_50_50] eq_refl eq_refl)))).
Defined.

(** X4. The touch handlers are the mouse handlers on the single touch point:
    with exactly one touch they do what the mouse handlers do at that point;
    with any other number of touches they do nothing; and a touch move
    suppresses the default action exactly when it pans. *)
Theorem touch_mirrors_mouse (t : Pointer) (e : TouchEvent) (c : Component) :
  handleTouchStart {| touches := [t] |} c = handleMouseDown t c /\
  fst (handleTouchMove {| touches := [t] |} c) = handleMouseMove t c /\
  (snd (handleTouchMove e c) = true <->
   isDragging c = true /\ (1 <? zoom (viewerState c)) = true /\
   List.length (touches e) = 1%nat) /\
  (snd (handleTouchMove e c) = false -> fst (handleTouchMove e c) = c) /\
  (List.length (touches e) <> 1%nat ->
   handleTouchStart e c = c /\ handleTouchMove e c = (c, false)).
Proof.
  split; [|split; [|split; [|split]]].
  - unfold handleTouchStart, handleMouseDown. simpl.
    rewrite andb_true_r. reflexivity.
  - unfold handleTouchMove, handleMouseMove. simpl.
    rewrite andb_true_r.
    destruct (isDragging c && (1 <? zoom (viewerState c))); reflexivity.
  - unfold handleTouchMove.
    destruct (isDragging c), (1 <? zoom (viewerState c)); simpl;
      try (split; [discriminate|intros (? & ? & ?); discriminate]).
    destruct (Nat.eqb_spec (List.length (touches e)) 1) as [E|E].
    + destruct (touches e); [discriminate|]. simpl. tauto.
    + simpl. split; [discriminate|tauto].
  - unfold handleTouchMove.
    destruct (isDragging c && (1 <? zoom (viewerState c))
              && (List.length (touches e) =? 1)%nat); [|reflexivity].
    destruct (touches e); [reflexivity|discriminate].
  - intros H. unfold handleTouchStart, handleTouchMove.
    destruct (Nat.eqb_spec (List.length (touches e)) 1); [contradiction|].
    rewrite !andb_false_r. split; reflexivity.
Qed.

(** *** Keyboard *)

(** X6. A key pressed while the focus is not on the document body changes
    nothing and is not suppressed. On the body, '+' and '=' are the zoom-in
    button, '-' the zoom-out button, 'r' and 'R' the rotate button, '0' the
    reset button and 'Escape' the close button; the default action is
    suppressed exactly for these seven keys, and any other key changes
    nothing. *)
Theorem keyboard_shortcuts_are_the_buttons
    (props : Props) (e : KeyboardEvent) (c : Component) :
  (targetIsBody e = false -> handleKeyDown props e c = (c, [])) /\
  (targetIsBody e = true ->
   (In PreventDefault (snd (handleKeyDown props e c)) <-> In (key e) shortcut_keys) /\
   (~ In (key e) shortcut_keys -> handleKeyDown props e c = (c, [])) /\
   (key e = "+"%string \/ key e = "="%string ->
    handleKeyDown props e c = (next props (ClickZoom zoom_in) c, [PreventDefault])) /\
   (key e = "-"%string ->
    handleKeyDown props e c = (next props (ClickZoom zoom_out) c, [PreventDefault])) /\
   (key e = "r"%string \/ key e = "R"%string ->
    handleKeyDown props e c = (next props ClickRotate c, [PreventDefault])) /\
   (key e = "0"%string ->
    handleKeyDown props e c = (next props ClickReset c, [PreventDefault])) /\
   (key e = "Escape"%string ->
    handleKeyDown props e c
      = (next props ClickClose c, PreventDefault :: snd (step props ClickClose c)))).
Proof.
  unfold handleKeyDown, shortcut_keys.
  split; intros Hb; rewrite Hb; simpl; [reflexivity|].
  destruct (String.eqb_spec (key e) "+") as [E1|E1].
  { rewrite E1. simpl. intuition (try discriminate; auto). }
  destruct (String.eqb_spec (key e) "=") as [E2|E2].
  { rewrite E2. simpl. intuition (try discriminate; auto). }
  destruct (String.eqb_spec (key e) "-") as [E3|E3].
  { rewrite E3. simpl. intuition (try discriminate; auto). }
  destruct (String.eqb_spec (key e) "r") as [E4|E4].
  { rewrite E4. simpl. intuition (try discriminate; auto). }
  destruct (String.eqb_spec (key e) "R") as [E5|E5].
  { rewrite E5. simpl. intuition (try discriminate; auto). }
  destruct (String.eqb_spec (key e) "0") as [E6|E6].
  { rewrite E6. simpl. intuition (try discriminate; auto). }
  destruct (String.eqb_spec (key e) "Escape") as [E7|E7].
  { rewrite E7. simpl. intuition (try discriminate; auto). }
  simpl. intuition congruence.
Qed.

Lemma keyboard_shortcuts_are_the_buttons_witness :
  handleKeyDown with_callbacks {| targetIsBody := false; key := "+" |} zoomed_2
    = (zoomed_2, []) /\
  zoom (viewerState (fst (handleKeyDown with_callbacks
                            {| targetIsBody := true; key := "0" |} zoomed_2))) = 1.
Proof.
  split.
  - exact (proj1 (keyboard_shortcuts_are_the_buttons with_callbacks
                    {| targetIsBody := false; key := "+" |} zoomed_2) eq_refl).
  - destruct (proj2 (keyboard_shortcuts_are_the_buttons with_callbacks
                       {| targetIsBody := true; key := "0" |} zoomed_2) eq_refl)
      as (_ & _ & _ & _ & _ & H & _).
    rewrite (H eq_refl). reflexivity.
Defined.

(** *** Export against the live view, and when it is available *)

Lemma zero_mul_pos (z : float) :
  (0.1 <=? z) = true -> (z <=? 5) = true -> 0 * z = 0.
Proof.
  rewrite !leb_spec. intros H H'. apply Prim2SF_inj. rewrite mul_spec.
  change (Prim2SF 0.1) with Rounding.c0_1 in H.
  change (Prim2SF 5) with Rounding.c5 in H'.
  destruct (Prim2SF z) as [[]|[]| |[] m e]; try discriminate; reflexivity.
Qed.

(** X7. What is exported agrees with what is shown: the canvas carries the
    contrast and brightness of the live filter, the image is drawn exactly
    once, scaled to the width and height given to the canvas, and every
    [save] of the context has its [restore]. *)
Theorem export_matches_live_view
    (props : Props) (img : Image) (c : Component) (canvas : Canvas) :
  savedCanvas (snd (handleSave props (Some img) true c)) = Some canvas ->
  filter canvas = Some (imgFilter c) /\
  (exists dx dy,
      List.filter is_drawImage (calls canvas)
        = [ctx_drawImage img dx dy (width canvas) (height canvas)]) /\
  List.length (List.filter is_save (calls canvas))
    = List.length (List.filter is_restore (calls canvas)) /\
  ((rotation (viewerState c) = 0)%Z ->
   calls canvas = [ctx_drawImage img 0 0 (width canvas) (height canvas)]).
Proof.
  unfold handleSave. simpl.
  destruct (onSave props); [|discriminate]. simpl.
  intros H. injection H as <-. simpl.
  split; [reflexivity|].
  destruct (Z.eqb_spec (rotation (viewerState c)) 0) as [E|E]; simpl.
  - split; [eauto|]. split; reflexivity.
  - split; [eauto|]. split; [reflexivity|contradiction].
Qed.

Lemma export_matches_live_view_witness :
  exists canvas,
    savedCanvas (snd (handleSave with_callbacks (Some image_100x50) true zoomed_2_rotated_90))
      = Some canvas /\
    filter canvas = Some {| contrast_pct := 100; brightness_pct := 100 |}.
Proof.
  eexists. split; [reflexivity|].
  exact (proj1 (export_matches_live_view with_callbacks image_100x50
                  zoomed_2_rotated_90 _ eq_refl)).
Defined.

Lemma next_image_flags (props : Props) (ev : Event) (c : Component) :
  (isImageError c = true -> isImageError (next props ev c) = true) /\
  (isImageLoaded c = true -> isImageLoaded (next props ev c) = true).
Proof.
  unfold next.
  destruct ev; simpl; try (split; intros H; solve [exact H|reflexivity]).
  - rewrite handleSave_state. auto.
  - unfold handleMouseDown. destruct (1 <? zoom (viewerState c)); auto.
  - unfold handleMouseMove.
    destruct (isDragging c && (1 <? zoom (viewerState c))); auto.
  - unfold handleTouchStart.
    destruct ((1 <? zoom (viewerState c)) && (List.length (touches e) =? 1)%nat);
      [destruct (touches e)|]; auto.
  - unfold handleTouchMove.
    destruct (isDragging c && (1 <? zoom (viewerState c))
              && (List.length (touches e) =? 1)%nat);
      [destruct (touches e)|]; auto.
  - unfold handleKeyDown.
    destruct (targetIsBody e); simpl; [|auto].
    destruct ((key e =? "+") || (key e =? "="))%string; [auto|].
    destruct (key e =? "-")%string; [auto|].
    destruct ((key e =? "r") || (key e =? "R"))%string; [auto|].
    destruct (key e =? "0")%string; [auto|].
    destruct (key e =? "Escape")%string; auto.
Qed.

Lemma run_image_error (props : Props) (evs : list Event) : forall c,
  isImageError c = true -> isImageError (run props evs c) = true.
Proof.
  induction evs as [|ev evs IH]; intros c H; [exact H|].
  apply (IH (next props ev c)), next_image_flags, H.
Qed.

(** X8. A failed image load is final: no event, reset included, clears the
    error; the placeholder stays, the [<img>] element is gone, and Save
    exports nothing from then on. *)
Theorem image_error_is_permanent
    (props : Props) (evs : list Event) (c : Component) (img : Image) (context2d : bool) :
  isImageError c = true ->
  isImageError (run props evs c) = true /\
  imageArea (run props evs c) = NotPreviewable /\
  handleSave props (mountedImage img (run props evs c)) context2d (run props evs c)
    = (run props evs c, []).
Proof.
  intros H. pose proof (run_image_error props evs c H) as E.
  unfold imageArea, mountedImage. rewrite E. repeat split.
Qed.

Lemma image_error_is_permanent_witness :
  imageArea (run with_callbacks [ImgLoad; ClickReset; ClickZoom zoom_in]
               (next with_callbacks ImgError initial)) = NotPreviewable.
Proof.
  exact (proj1 (proj2 (image_error_is_permanent with_callbacks
                         [ImgLoad; ClickReset; ClickZoom zoom_in]
                         (next with_callbacks ImgError initial)
                         image_100x50 true eq_refl))).
Defined.

(** X9. Save does not wait for the image to load: as long as the [<img>]
    element is mounted and [onSave] is supplied, [onSave] is called, loaded
    or not; for an image whose natural size is still 0 x 0 the canvas it
    receives is 0 x 0. *)
Theorem save_is_not_gated_on_load (props : Props) (img : Image) (c : Component) :
  onSave props = true -> isImageError c = false -> zoom_in_range c ->
  exists canvas,
    snd (handleSave props (mountedImage img c) true c) = [CallOnSave (image_png canvas)] /\
    (naturalWidth img = 0 -> naturalHeight img = 0 ->
     width canvas = 0 /\ height canvas = 0).
Proof.
  intros Hs He [Hlo Hhi]. unfold mountedImage, handleSave. rewrite He. simpl. rewrite Hs.
  eexists. split; [reflexivity|]. simpl.
  intros -> ->. rewrite (zero_mul_pos _ Hlo Hhi). split; reflexivity.
Qed.

Lemma save_is_not_gated_on_load_witness :
  exists canvas,
    snd (handleSave with_callbacks
           (mountedImage {| naturalWidth := 0; naturalHeight := 0 |} initial) true initial)
      = [CallOnSave (image_png canvas)] /\
    width canvas = 0 /\ height canvas = 0.
Proof.
  destruct (save_is_not_gated_on_load with_callbacks
              {| naturalWidth := 0; naturalHeight := 0 |} initial
              eq_refl eq_refl (conj eq_refl eq_refl)) as (canvas & Hc & Hsize).
  exists canvas. split; [exact Hc|exact (Hsize eq_refl eq_refl)].
Defined.

End ViewerMore.

(** ** Further properties of the upload page *)

Module UploadMore.
Import JS UploadScan UploadPage Scenario.
Local Open Scope string_scope.

Section Browser.

Variable formatFileSize : Z -> string.
Variable readAsDataURL : File -> string.


(** *** Drag and drop *)

Lemma handleFileSelect_frame (f : File) (c : Component) :
  let c' := fst (UploadScan.handleFileSelect formatFileSize readAsDataURL f c) in
  isDragOver c' = isDragOver c /\ dragCounter c' = dragCounter c /\
  hasConsent c' = hasConsent c /\ isAnalyzing c' = isAnalyzing c /\
  showViewer c' = showViewer c.
Proof.
  unfold UploadScan.handleFileSelect. destruct (negb (validateFile f)); simpl; auto.
Qed.

Lemma handleAnalyze_frame (onAnalyze : bool) (throws : option ThrowSite)
    (random : number) (now : string) (c : Component) :
  let c' := fst (handleAnalyze onAnalyze throws random now c) in
  isDragOver c' = isDragOver c /\ dragCounter c' = dragCounter c /\
  hasConsent c' = hasConsent c /\ fileInfo c' = fileInfo c /\
  showViewer c' = showViewer c.
Proof.
  unfold handleAnalyze. destruct (fileInfo c) eqn:E; simpl; auto.
  destruct (negb (hasConsent c)); simpl; auto.
Qed.

Lemma next_highlight (ev : PageEvent) (p : Page) :
  (ev = DragLeave -> (1 <= dragCounter (cells p))%Z) ->
  (ev = DragLeave -> renderedDragCounter p = dragCounter (cells p)) ->
  highlight_tracks_counter (cells p) ->
  highlight_tracks_counter
    (cells (UploadPage.next formatFileSize readAsDataURL ev p)).
Proof.
  unfold highlight_tracks_counter, UploadPage.next, UploadPage.step.
  intros Hleave Hfresh [Hc Hd].
  destruct p as [c k]. simpl in *.
  destruct ev; simpl; auto.
  - split; [lia|]. symmetry. apply Z.ltb_lt. lia.
  - specialize (Hleave eq_refl). rewrite (Hfresh eq_refl).
    unfold handleDragLeave.
    destruct (Z.leb_spec (dragCounter c) 1); simpl.
    + split; [lia|]. symmetry. apply Z.ltb_ge. lia.
    + split; [lia|]. rewrite Hd.
      transitivity true; [apply Z.ltb_lt; lia|symmetry; apply Z.ltb_lt; lia].
  - unfold UploadPage.handleDrop. destruct files as [|f rest]; simpl.
    + split; [lia|reflexivity].
    + destruct (UploadScan.handleFileSelect formatFileSize readAsDataURL f _) eqn:E.
      pose proof (handleFileSelect_frame f
                    (setDragCounter (fun _ => 0%Z) (setIsDragOver false c))) as F.
      rewrite E in F. simpl in F. destruct F as (F1 & F2 & _).
      simpl. rewrite F1, F2. split; [lia|reflexivity].
  - unfold UploadPage.handleFileInputChange.
    destruct files as [[|f rest]|]; simpl; auto.
    destruct (UploadScan.handleFileSelect formatFileSize readAsDataURL f c) eqn:E.
    pose proof (handleFileSelect_frame f c) as F.
    rewrite E in F. simpl in F. destruct F as (F1 & F2 & _).
    simpl. rewrite F1, F2. auto.
  - destruct (canAnalyze c); simpl; auto.
    destruct (handleAnalyze onAnalyze throws random now c) eqn:E.
    pose proof (handleAnalyze_frame onAnalyze throws random now c) as F.
    rewrite E in F. simpl in F. destruct F as (F1 & F2 & _).
    simpl. rewrite F1, F2. auto.
  - destruct (fileInfo c) as [info|]; simpl; auto.
    destruct (hasPreview info); simpl; auto.
  - unfold handleSaveImage. destruct (fileInfo c); simpl; auto.
Qed.

Lemma run_highlight (evs : list PageEvent) : forall p,
  UploadPage.leaves_matched formatFileSize readAsDataURL evs p ->
  UploadPage.leaves_rendered formatFileSize readAsDataURL evs p ->
  highlight_tracks_counter (cells p) ->
  highlight_tracks_counter
    (cells (UploadPage.run formatFileSize readAsDataURL evs p)).
Proof.
  induction evs as [|ev evs IH]; intros p Hm Hr Hi; [exact Hi|].
  destruct Hm as [Hleave Hrest]. destruct Hr as [Hfresh Hrest'].
  apply (IH (UploadPage.next formatFileSize readAsDataURL ev p) Hrest Hrest').
  apply next_highlight; assumption.
Qed.

Lemma handleDrop_clears (files : list File) (c : Component) :
  dragCounter (fst (UploadPage.handleDrop formatFileSize readAsDataURL files c)) = 0%Z /\
  isDragOver (fst (UploadPage.handleDrop formatFileSize readAsDataURL files c)) = false.
Proof.
  unfold UploadPage.handleDrop. destruct files as [|f rest]; simpl; [auto|].
  destruct (UploadScan.handleFileSelect formatFileSize readAsDataURL f _) eqn:E.
  pose proof (handleFileSelect_frame f
                (setDragCounter (fun _ => 0%Z) (setIsDragOver false c))) as F.
  rewrite E in F. simpl in F. destruct F as (F1 & F2 & _).
  simpl. rewrite F1, F2. auto.
Qed.

(** X10. From the page as it opens, along any events in which every
    drag-leave answers an earlier drag-enter and is handled by a handler
    rendered with the current count, the count of entered elements never
    goes negative and the drop zone is highlighted exactly while it is
    positive; a drop puts the count back to 0 and removes the highlight.
    Without the render the highlight is lost: a drag-leave whose handler
    was rendered with a count of at most 1, handled while the count is 2 or
    more, switches the highlight off and leaves the count positive. *)
Theorem drop_zone_highlight_follows_rendered_counter
    (evs : list PageEvent) (files : list File) :
  UploadPage.leaves_matched formatFileSize readAsDataURL evs UploadPage.opened ->
  UploadPage.leaves_rendered formatFileSize readAsDataURL evs UploadPage.opened ->
  let c := cells (UploadPage.run formatFileSize readAsDataURL evs UploadPage.opened) in
  (0 <= dragCounter c)%Z /\
  isDragOver c = (0 <? dragCounter c)%Z /\
  dragCounter (fst (UploadPage.handleDrop formatFileSize readAsDataURL files c)) = 0%Z /\
  isDragOver (fst (UploadPage.handleDrop formatFileSize readAsDataURL files c)) = false /\
  (forall rendered : Z,
      (rendered <= 1)%Z -> (2 <= dragCounter c)%Z ->
      (1 <= dragCounter (fst (handleDragLeave rendered c)))%Z /\
      isDragOver (fst (handleDragLeave rendered c)) = false).
Proof.
  intros Hm Hr c.
  destruct (run_highlight evs UploadPage.opened Hm Hr (conj (Z.le_refl 0) eq_refl))
    as [H1 H2].
  split; [exact H1|]. split; [exact H2|].
  destruct (handleDrop_clears files c) as [H3 H4].
  split; [exact H3|]. split; [exact H4|].
  intros rendered Hk Hc. unfold handleDragLeave.
  destruct (Z.leb_spec rendered 1); [|lia]. simpl. split; [lia|reflexivity].
Qed.

(** X11. A drop or a file-input change looks at the first file only: the
    other files change nothing, and an empty list selects nothing and raises
    no alert; a rejected first file leaves the selection as it was. *)
Theorem only_the_first_file_counts
    (f : File) (rest : list File) (c : Component) :
  UploadPage.handleDrop formatFileSize readAsDataURL (f :: rest) c = UploadPage.handleDrop formatFileSize readAsDataURL [f] c /\
  UploadPage.handleFileInputChange formatFileSize readAsDataURL (Some (f :: rest)) c = UploadPage.handleFileInputChange formatFileSize readAsDataURL (Some [f]) c /\
  fileInfo (fst (UploadPage.handleDrop formatFileSize readAsDataURL [] c)) = fileInfo c /\
  snd (UploadPage.handleDrop formatFileSize readAsDataURL [] c) = [PreventDefault; StopPropagation] /\
  UploadPage.handleFileInputChange formatFileSize readAsDataURL (Some []) c = (c, []) /\
  UploadPage.handleFileInputChange formatFileSize readAsDataURL None c = (c, []) /\
  (validateFile f = false ->
   fileInfo (fst (UploadPage.handleDrop formatFileSize readAsDataURL (f :: rest) c)) = fileInfo c /\
   fst (UploadPage.handleFileInputChange formatFileSize readAsDataURL (Some (f :: rest)) c) = c) /\
  (validateFile f = true ->
   option_map file (fileInfo (fst (UploadPage.handleDrop formatFileSize readAsDataURL (f :: rest) c))) = Some f /\
   option_map file (fileInfo (fst (UploadPage.handleFileInputChange formatFileSize readAsDataURL (Some (f :: rest)) c))) = Some f).
Proof.
  repeat split; try reflexivity;
    unfold UploadPage.handleDrop, UploadPage.handleFileInputChange,
           UploadScan.handleFileSelect;
    rewrite H; reflexivity.
Qed.

(** *** Consent, analysis, reset and the viewer's callbacks *)

(** X12. Selecting another file does not touch the consent: consent given
    for one file stays given for the next accepted file, which can be
    analysed at once, and the report is then built for the new file. *)
Theorem consent_carries_over_to_next_file
    (f : File) (c : Component) (random : number) (now : string) :
  validateFile f = true ->
  let c' := fst (UploadScan.handleFileSelect formatFileSize readAsDataURL f c) in
  hasConsent c' = hasConsent c /\
  isAnalyzing c' = isAnalyzing c /\
  (hasConsent c = true -> isAnalyzing c = false ->
   canAnalyze c' = true /\
   exists info, file info = f /\
     generatedReport random now c' = Some (sampleReportData info random now)).
Proof.
  intros Hv c'. unfold c', UploadScan.handleFileSelect. rewrite Hv. simpl.
  split; [reflexivity|]. split; [reflexivity|].
  intros Hc Ha. unfold canAnalyze, generatedReport. simpl. rewrite Hc, Ha.
  split; [reflexivity|]. eexists. split; [|reflexivity]. reflexivity.
Qed.

(** X13. Analysis runs only with a file and consent: otherwise the handler
    changes nothing and raises nothing. When it runs, it keeps the selection
    and the consent and ends with [isAnalyzing] off whether or not a call
    raises. If storing the report raises, the only outcome is the failure
    alert: nothing is stored, no navigation happens and [onAnalyze] is not
    called. If navigating raises, the report has been stored already and
    the alert follows, without [onAnalyze]. If [onAnalyze] raises, the
    report has been stored and navigated to before the alert. The alert is
    raised exactly when a call that is reached raises. After a reset the
    handler is back to doing nothing. *)
Theorem analysis_needs_file_and_consent
    (onAnalyze fileInputMounted : bool) (throws : option ThrowSite)
    (random : number) (now : string) (c : Component) :
  (fileInfo c = None \/ hasConsent c = false ->
   handleAnalyze onAnalyze throws random now c = (c, [])) /\
  (forall info, fileInfo c = Some info -> hasConsent c = true ->
   let c' := fst (handleAnalyze onAnalyze throws random now c) in
   let effects := snd (handleAnalyze onAnalyze throws random now c) in
   let report := sampleReportData info random now in
   let failed := Alert "Analysis failed. Please try again." in
   isAnalyzing c' = false /\ fileInfo c' = fileInfo c /\ hasConsent c' = true /\
   (throws = Some at_setItem -> effects = [Delay 3000; failed]) /\
   (throws = Some at_navigate ->
    effects = [Delay 3000; LocalStorage_setItem "paninsight-report" report; failed]) /\
   (throws = Some at_onAnalyze -> onAnalyze = true ->
    effects = [Delay 3000; LocalStorage_setItem "paninsight-report" report;
               Navigate "/report" report; CallOnAnalyze (file info); failed]) /\
   (In failed effects <->
    throws = Some at_setItem \/ throws = Some at_navigate \/
    (throws = Some at_onAnalyze /\ onAnalyze = true))) /\
  canAnalyze (fst (handleReset fileInputMounted c)) = false /\
  handleAnalyze onAnalyze throws random now (fst (handleReset fileInputMounted c))
    = (fst (handleReset fileInputMounted c), []).
Proof.
  unfold handleAnalyze. split; [|split; [|split; reflexivity]].
  - intros [H|H]; [rewrite H; reflexivity|].
    destruct (fileInfo c); [rewrite H|]; reflexivity.
  - intros info E Hc. rewrite E, Hc. simpl. rewrite E.
    split; [reflexivity|]. split; [reflexivity|]. split; [exact Hc|].
    split; [intros ->; reflexivity|].
    split; [intros ->; reflexivity|].
    split; [intros -> ->; reflexivity|].
    destruct throws as [[]|]; destruct onAnalyze; simpl; split; intros H;
      repeat match goal with
             | H : _ \/ _ |- _ => destruct H
             | H : _ /\ _ |- _ => destruct H
             | H : False |- _ => destruct H
             end;
      try discriminate; auto 10.
Qed.

(** X14. Saving from the viewer replaces the preview and nothing else of
    the selection: the file and its size label stay, the viewer closes and
    the success alert is raised (even when nothing is selected); the report
    a later analysis builds is the same as before the save. *)
Theorem viewer_save_replaces_only_the_preview
    (editedImageData : string) (c : Component) (random : number) (now : string) :
  let c' := fst (handleSaveImage editedImageData c) in
  showViewer c' = false /\ viewerProps c' = None /\
  snd (handleSaveImage editedImageData c)
    = [Raised (Alert "Image saved successfully! Your edited image has been updated.")] /\
  fileInfo c'
    = option_map (fun info => {| file := file info; preview := Some editedImageData;
                                 size_text := size_text info |}) (fileInfo c) /\
  hasConsent c' = hasConsent c /\ isAnalyzing c' = isAnalyzing c /\
  generatedReport random now c' = generatedReport random now c.
Proof.
  unfold handleSaveImage, viewerProps, generatedReport.
  destruct (fileInfo c) as [info|] eqn:E; simpl; rewrite ?E; repeat split.
Qed.

End Browser.

(** Two nested enters, each followed by a render, one leave, a drag-over:
    the count is 1 and the drop zone is highlighted; the drop clears both. *)
Lemma drop_zone_highlight_follows_rendered_counter_witness :
  isDragOver (cells (UploadPage.run (fun _ => "") (fun _ => "")
                [DragEnter; Render; DragEnter; Render; DragLeave; DragOver]
                UploadPage.opened))
    = (0 <? 1)%Z /\
  isDragOver (fst (UploadPage.handleDrop (fun _ => "") (fun _ => "") [scan_txt]
                (cells (UploadPage.run (fun _ => "") (fun _ => "")
                   [DragEnter; Render; DragEnter; Render; DragLeave; DragOver]
                   UploadPage.opened))))
    = false.
Proof.
  assert (Hm : UploadPage.leaves_matched (fun _ => "") (fun _ => "")
                 [DragEnter; Render; DragEnter; Render; DragLeave; DragOver]
                 UploadPage.opened).
  { simpl. repeat split; intros E; try discriminate E. vm_compute. discriminate. }
  assert (Hr : UploadPage.leaves_rendered (fun _ => "") (fun _ => "")
                 [DragEnter; Render; DragEnter; Render; DragLeave; DragOver]
                 UploadPage.opened).
  { simpl. repeat split; intros E; try discriminate E. }
  destruct (drop_zone_highlight_follows_rendered_counter (fun _ => "") (fun _ => "")
              [DragEnter; Render; DragEnter; Render; DragLeave; DragOver]
              [scan_txt] Hm Hr)
    as (_ & H2 & _ & H4 & _).
  split; [exact H2|exact H4].
Defined.

(** The same gesture with no render between the second enter and the
    leave: the count is 1, the pointer is still over the drop zone, and the
    highlight is off. *)
Example highlight_lost_without_render :
  let p := UploadPage.run (fun _ => "") (fun _ => "")
             [DragEnter; Render; DragEnter; DragLeave] UploadPage.opened in
  dragCounter (cells p) = 1%Z /\ isDragOver (cells p) = false.
Proof. split; reflexivity. Qed.

Lemma only_the_first_file_counts_witness :
  fileInfo (fst (UploadPage.handleDrop (fun _ => "") (fun _ => "")
                   [scan_txt; scan_png_50MiB] ready_to_analyze))
    = fileInfo ready_to_analyze /\
  option_map file (fileInfo (fst (UploadPage.handleDrop (fun _ => "") (fun _ => "")
                                    [scan_DCM; scan_txt] UploadPage.initial)))
    = Some scan_DCM.
Proof.
  split.
  - exact (proj1 (proj1 (proj2 (proj2 (proj2 (proj2 (proj2 (proj2
             (only_the_first_file_counts (fun _ => "") (fun _ => "")
                scan_txt [scan_png_50MiB] ready_to_analyze)))))))
             eq_refl)).
  - exact (proj1 (proj2 (proj2 (proj2 (proj2 (proj2 (proj2 (proj2
             (only_the_first_file_counts (fun _ => "") (fun _ => "")
                scan_DCM [scan_txt] UploadPage.initial)))))))
             eq_refl)).
Defined.

(** Consent was given for [scan.png]; [scan.DCM] is then selected and can be
    analysed without a new consent. *)
Lemma consent_carries_over_to_next_file_witness :
  canAnalyze (fst (UploadScan.handleFileSelect (fun _ => "") (fun _ => "")
                     scan_DCM ready_to_analyze)) = true.
Proof.
  exact (proj1 (proj2 (proj2 (consent_carries_over_to_next_file
                                (fun _ => "") (fun _ => "") scan_DCM ready_to_analyze
                                0.5%float "November 2, 2026" eq_refl))
                      eq_refl eq_refl)).
Defined.

Lemma analysis_needs_file_and_consent_witness :
  handleAnalyze true None 0.5%float "November 2, 2026" UploadPage.initial
    = (UploadPage.initial, []) /\
  snd (handleAnalyze true (Some at_setItem) 0.5%float "November 2, 2026" ready_to_analyze)
    = [Delay 3000; Alert "Analysis failed. Please try again."] /\
  In (LocalStorage_setItem "paninsight-report"
        (sampleReportData {| file := scan_png_50MiB; preview := None; size_text := "50 MB" |}
           0.5%float "November 2, 2026"))
     (snd (handleAnalyze true (Some at_navigate) 0.5%float "November 2, 2026"
             ready_to_analyze)).
Proof.
  split; [|split].
  - exact (proj1 (analysis_needs_file_and_consent true true None 0.5%float
                    "November 2, 2026" UploadPage.initial) (or_introl eq_refl)).
  - destruct (proj1 (proj2 (analysis_needs_file_and_consent true true (Some at_setItem)
                              0.5%float "November 2, 2026" ready_to_analyze))
                    _ eq_refl eq_refl) as (_ & _ & _ & H & _).
    exact (H eq_refl).
  - destruct (proj1 (proj2 (analysis_needs_file_and_consent true true (Some at_navigate)
                              0.5%float "November 2, 2026" ready_to_analyze))
                    _ eq_refl eq_refl) as (_ & _ & _ & _ & H & _).
    rewrite (H eq_refl). simpl. auto.
Defined.

End UploadMore.

(** ** The theme provider *)

Module ThemeFacts.
Import Theme.
Local Open Scope string_scope.

Lemma applyTheme_in_sync (p : Provider) : in_sync (applyTheme p).
Proof. unfold in_sync, applyTheme. destruct (isDark p) eqn:E; simpl; auto. Qed.

Lemma applyTheme_isDark (p : Provider) : isDark (applyTheme p) = isDark p.
Proof. unfold applyTheme. destruct (isDark p) eqn:E; simpl; auto. Qed.

Lemma pageEffect_isDark (route : Route) (p : Provider) :
  isDark (pageEffect route p) = isDark p.
Proof. destruct route; simpl; auto using applyTheme_isDark. Qed.

Lemma mount_in_sync (route : Route) (savedTheme : option string) (cls : bool) :
  in_sync (mount route savedTheme cls).
Proof.
  unfold mount, commit.
  match goal with |- in_sync (if ?b then _ else _) => destruct b end;
    apply applyTheme_in_sync.
Qed.

Lemma toggles_in_sync (route : Route) (n : nat) (p : Provider) :
  in_sync p -> in_sync (toggles route n p).
Proof.
  intros H. destruct n as [|n]; [exact H|].
  unfold toggles. simpl. apply applyTheme_in_sync.
Qed.

Lemma mount_isDark (route : Route) (savedTheme : option string) (cls : bool) :
  isDark (mount route savedTheme cls)
    = match route with
      | route_upload => false
      | _ => match savedTheme with Some s => s =? "dark" | None => false end
      end.
Proof.
  destruct route; unfold mount, commit; simpl;
    destruct (match savedTheme with Some s => s =? "dark" | None => false end);
    reflexivity.
Qed.

Lemma in_sync_eq (p q : Provider) :
  in_sync p -> in_sync q -> isDark p = isDark q -> p = q.
Proof.
  destruct p as [d s c], q as [d' s' c']. unfold in_sync. simpl.
  intros [-> ->] [-> ->] ->. reflexivity.
Qed.

(** X15. With effects run once per commit, whether the theme survives a
    reload depends on the page that is loaded. On every route, after
    mounting with any stored entry and any number of toggles, the stored
    entry is 'dark' or 'light' according to the theme and the document's
    [dark] class agrees, and two toggles give back the state. Reloading on
    the home or the report route restores the theme: the mounted theme is
    dark exactly when the stored entry was 'dark' (a missing or unknown
    entry gives light), and mounting from what was left behind gives the
    same state. Reloading on the upload route does not: its page effect
    stores 'light' before the provider reads the entry, so the page always
    mounts light and leaves 'light' stored, whatever was stored. *)
Theorem theme_reload_depends_on_route
    (route reload : Route) (savedTheme : option string) (cls : bool) (n : nat) :
  let p := toggles route n (mount route savedTheme cls) in
  stored p = Some (if isDark p then "dark" else "light") /\
  darkClass p = isDark p /\
  toggleTheme route (toggleTheme route p) = p /\
  (reload <> route_upload ->
   (isDark (mount reload savedTheme cls) = true <-> savedTheme = Some "dark") /\
   isDark (mount reload (stored p) (darkClass p)) = isDark p /\
   (reload = route -> mount reload (stored p) (darkClass p) = p)) /\
  isDark (mount route_upload (stored p) (darkClass p)) = false /\
  stored (mount route_upload (stored p) (darkClass p)) = Some "light" /\
  isDark (mount route_upload savedTheme cls) = false /\
  stored (mount route_upload savedTheme cls) = Some "light".
Proof.
  intros p.
  pose proof (toggles_in_sync route n (mount route savedTheme cls)
                (mount_in_sync route savedTheme cls)) as Hp. fold p in Hp.
  destruct Hp as [Hs Hc].
  split; [exact Hs|]. split; [exact Hc|]. split.
  { apply in_sync_eq; [apply applyTheme_in_sync|split; assumption|].
    unfold toggleTheme, commit.
    rewrite applyTheme_isDark, pageEffect_isDark. simpl.
    rewrite applyTheme_isDark, pageEffect_isDark. simpl.
    apply Bool.negb_involutive. }
  split.
  { intros Hr.
    assert (M : isDark (mount reload (stored p) (darkClass p)) = isDark p).
    { rewrite mount_isDark, Hs. destruct reload; try contradiction;
        destruct (isDark p); reflexivity. }
    split; [|split; [exact M|]].
    - rewrite mount_isDark.
      destruct reload; try contradiction;
        (destruct savedTheme as [s|]; [|split; discriminate];
         rewrite String.eqb_eq; split; congruence).
    - intros _. apply in_sync_eq; [apply mount_in_sync|split; assumption|exact M]. }
  split; [apply mount_isDark|].
  split.
  { destruct (mount_in_sync route_upload (stored p) (darkClass p)) as [E _].
    rewrite E, mount_isDark. reflexivity. }
  split; [apply mount_isDark|].
  destruct (mount_in_sync route_upload savedTheme cls) as [E _].
  rewrite E, mount_isDark. reflexivity.
Qed.

(** Dark was stored; a reload on the upload route comes up light and
    stores 'light', so that the home route, opened next, is light too;
    a reload on the home route comes up dark. *)
Example dark_theme_lost_on_upload_route :
  isDark (mount route_upload (Some "dark") true) = false /\
  stored (mount route_upload (Some "dark") true) = Some "light" /\
  isDark (mount route_home (stored (mount route_upload (Some "dark") true))
            (darkClass (mount route_upload (Some "dark") true))) = false /\
  isDark (mount route_home (Some "dark") true) = true /\
  isDark (mount route_report (Some "dark") false) = true.
Proof. repeat split. Qed.

End ThemeFacts.

(** ** The report page on generated reports *)

Module ReportFacts.
Import JS UploadScan AnalysisReport FloatFacts.
Local Open Scope string_scope.

Lemma confidence_color_table :
  forallb (fun n => String.eqb (getConfidenceColor (Z2number n))
                      (if (80 <=? n)%Z then "text-green-600 dark:text-green-400"
                       else "text-yellow-600 dark:text-yellow-400"))
          (map Z.of_nat (seq 70 30)) = true.
Proof. vm_compute. reflexivity. Qed.

(** X16. The report page never shows the confidence of a generated report
    in red: with [Math.random()] in [0, 1) the confidence is an integer n
    between 70 and 99, shown green when n >= 80 and yellow otherwise; and
    its risk level, always Low, is shown in the green style. *)
Theorem generated_confidence_is_green_or_yellow
    (info : FileInfo) (random : number) (now : string) :
  (0 <=? random)%float = true -> (random <? 1)%float = true ->
  let report := sampleReportData info random now in
  (exists n : Z, (70 <= n <= 99)%Z /\ confidence report = Z2number n /\
     getConfidenceColor (confidence report)
       = if (80 <=? n)%Z then "text-green-600 dark:text-green-400"
         else "text-yellow-600 dark:text-yellow-400") /\
  getConfidenceColor (confidence report) <> "text-red-600 dark:text-red-400" /\
  getRiskLevelColor (riskLevel_string (riskLevel report))
    = "text-green-600 dark:text-green-400 bg-green-100 dark:bg-green-900/30".
Proof.
  intros Hlo Hhi report.
  destruct (floor_random_30 random Hlo Hhi) as (k & Hk & E).
  assert (C : getConfidenceColor (confidence report)
              = if (80 <=? 70 + k)%Z then "text-green-600 dark:text-green-400"
                else "text-yellow-600 dark:text-yellow-400").
  { unfold report. simpl confidence. rewrite E.
    apply String.eqb_eq.
    pose proof confidence_color_table as T. rewrite forallb_forall in T.
    apply (T (70 + k)%Z).
    replace (70 + k)%Z with (Z.of_nat (Z.to_nat (70 + k))) by lia.
    apply in_map, in_seq. lia. }
  split; [exists (70 + k)%Z; split; [lia|split; [exact E|exact C]]|].
  split; [|reflexivity].
  rewrite C. destruct (80 <=? 70 + k)%Z; discriminate.
Qed.

Lemma generated_confidence_is_green_or_yellow_witness :
  getConfidenceColor
    (confidence (sampleReportData
                   {| file := Scenario.scan_png_50MiB; preview := None; size_text := "50 MB" |}
                   0.5%float "November 2, 2026"))
    <> "text-red-600 dark:text-red-400" /\
  getConfidenceColor (Math_floor (0.5 * 30) + 70)%float = "text-green-600 dark:text-green-400" /\
  getConfidenceColor (Math_floor (0.1 * 30) + 70)%float = "text-yellow-600 dark:text-yellow-400".
Proof.
  split; [|split; reflexivity].
  exact (proj1 (proj2 (generated_confidence_is_green_or_yellow
                         {| file := Scenario.scan_png_50MiB; preview := None;
                            size_text := "50 MB" |}
                         0.5%float "November 2, 2026" eq_refl eq_refl))).
Defined.

End ReportFacts.
